(** * Solar energy forecasting: the resampling pipeline of [functions.py]

    A shallow embedding of [prepare_weather_data], [predict_ghi],
    [calculate_power_generation], [calculate_optimal_tilt_angle] and
    [solar_power_forecast].

    Conventions of the embedding.
    - A timestamp is the number of whole hours since 1970-01-01 00:00 (a [Z]).
      The forecast source stamps its samples on the hour ([dt_txt] such as
      [2024-01-01 12:00:00]), so an hour number loses nothing; samples off the
      hour are outside the model.
    - A temperature is a rational ([Q]); a missing cell (NaN) is [None].
    - A data frame with the columns [datetime] and [temp] is a list of pairs,
      one per row, in row order.
    - External calls (forecast, geocoder, irradiance ceiling, LightGBM model)
      are arguments holding what the call returned. *)

From Stdlib Require Import ZArith QArith Qminmax List Bool Lia String.
From Stdlib Require Import Sorting.Sorted Sorting.Permutation.
From Stdlib Require Import Lqa.
Import ListNotations.
Local Open Scope Z_scope.

(** ** Timestamps and the calendar *)

Module Clock.

(** [Timestamp.hour] *)
Definition dt_hour (t : Z) : Z := t mod 24.

(** [Timestamp.date()], as a day number (days since 1970-01-01). *)
Definition dt_date (t : Z) : Z := t / 24.

(** The timestamp a date string [%Y-%m-%d] parses to: midnight of that day. *)
Definition midnight (d : Z) : Z := 24 * d.

(** [timedelta(days=n)] in hours. *)
Definition days (n : Z) : Z := 24 * n.

(** Proleptic Gregorian calendar: day number to (year, month, day). *)
Definition civil_from_days (z0 : Z) : Z * Z * Z :=
  let z := z0 + 719468 in
  let era := z / 146097 in
  let doe := z - era * 146097 in
  let yoe := (doe - doe / 1460 + doe / 36524 - doe / 146096) / 365 in
  let y := yoe + era * 400 in
  let doy := doe - (365 * yoe + yoe / 4 - yoe / 100) in
  let mp := (5 * doy + 2) / 153 in
  let d := doy - (153 * mp + 2) / 5 + 1 in
  let m := if mp <? 10 then mp + 3 else mp - 9 in
  ((if m <=? 2 then y + 1 else y), m, d).

(** (year, month, day) to day number. *)
Definition days_from_civil (y0 m d : Z) : Z :=
  let y := if m <=? 2 then y0 - 1 else y0 in
  let era := y / 400 in
  let yoe := y - era * 400 in
  let doy := (153 * (if 2 <? m then m - 3 else m + 9) + 2) / 5 + d - 1 in
  let doe := yoe * 365 + yoe / 4 - yoe / 100 + doy in
  era * 146097 + doe - 719468.

Definition dt_year (t : Z) : Z := fst (fst (civil_from_days (dt_date t))).
Definition dt_month (t : Z) : Z := snd (fst (civil_from_days (dt_date t))).
Definition dt_day (t : Z) : Z := snd (civil_from_days (dt_date t)).

(** [timetuple().tm_yday]: 1 on the first of January. *)
Definition tm_yday (t : Z) : Z :=
  dt_date t - days_from_civil (dt_year t) 1 1 + 1.

(** The hour number of [y-m-d h:00]. *)
Definition at_hour (y m d h : Z) : Z := 24 * days_from_civil y m d + h.

End Clock.
Import Clock.

(** ** Columns and frames *)

(** A cell of the [temp] column. *)
Abbreviation cell := (option Q).

(** A frame with the columns [datetime] and [temp]. *)
Abbreviation frame := (list (Z * option Q)).

Definition known (c : cell) : bool :=
  match c with Some _ => true | None => false end.

(** [lo, lo+1, ..., lo+n-1] *)
Definition hours_from (lo : Z) (n : nat) : list Z :=
  map (fun i => lo + Z.of_nat i) (seq 0 n).

(** [Series.min()] and [Series.max()] of a column of timestamps. *)
Definition col_min (d : Z) (l : list Z) : Z :=
  match l with [] => d | x :: tl => fold_left Z.min tl x end.

Definition col_max (d : Z) (l : list Z) : Z :=
  match l with [] => d | x :: tl => fold_left Z.max tl x end.

(** The row labelled [t], if there is one (labels are unique where this is
    used). *)
Definition loc {A} (t : Z) (df : list (Z * A)) : option A :=
  option_map snd (find (fun r => fst r =? t) df).

(** [df.reindex(index)] for a frame indexed by [datetime]: a label that is
    not in [df] gets a missing cell. *)
Definition reindex (index : list Z) (df : frame) : frame :=
  map (fun t => (t, match loc t df with Some c => c | None => None end)) index.

(** Apply a column transformer to the [temp] column, leaving [datetime]. *)
Definition on_temp (f : list cell -> list cell) (df : frame) : frame :=
  combine (map fst df) (f (map snd df)).

(** *** Filling *)

(** Distance to, and value of, the first known cell of [l]. *)
Fixpoint next_known (l : list cell) : option (nat * Q) :=
  match l with
  | [] => None
  | Some v :: _ => Some (O, v)
  | None :: tl =>
      match next_known tl with
      | Some (n, v) => Some (S n, v)
      | None => None
      end
  end.

(** [Series.interpolate(method='linear')] with pandas' defaults
    ([limit_direction='forward'], no limit): rows count as equally spaced;
    a gap between two known cells is filled on the straight line between
    them; a gap after the last known cell repeats it; a gap before the
    first known cell stays missing.  [prev] is the last known value and the
    number of missing cells passed since. *)
Fixpoint interpolate_from (prev : option (Q * nat)) (l : list cell) : list cell :=
  match l with
  | [] => []
  | Some v :: tl => Some v :: interpolate_from (Some (v, O)) tl
  | None :: tl =>
      match prev with
      | None => None :: interpolate_from None tl
      | Some (a, d) =>
          (match next_known tl with
           | Some (m, b) =>
               Some (a + (b - a) * (inject_Z (Z.of_nat (S d))
                                    / inject_Z (Z.of_nat (S d + S m))))%Q
           | None => Some a
           end) :: interpolate_from (Some (a, S d)) tl
      end
  end.

Definition interpolate (l : list cell) : list cell := interpolate_from None l.

(** [fillna(method='bfill')]: a missing cell takes the next known value. *)
Fixpoint bfill (l : list cell) : list cell :=
  match l with
  | [] => []
  | Some v :: tl => Some v :: bfill tl
  | None :: tl => option_map snd (next_known tl) :: bfill tl
  end.

(** [fillna(method='ffill')]: a missing cell takes the previous known value. *)
Fixpoint ffill_from (prev : cell) (l : list cell) : list cell :=
  match l with
  | [] => []
  | Some v :: tl => Some v :: ffill_from (Some v) tl
  | None :: tl => prev :: ffill_from prev tl
  end.

Definition ffill (l : list cell) : list cell := ffill_from None l.

(** *** Sorting by [datetime] *)

(** [df.sort_values(by='datetime')].  The frames sorted here have pairwise
    distinct timestamps, for which every sorting algorithm gives the same
    rows in the same order; the model inserts row by row. *)
Fixpoint insert_by_datetime (r : Z * cell) (df : frame) : frame :=
  match df with
  | [] => [r]
  | r' :: tl =>
      if fst r <=? fst r' then r :: df else r' :: insert_by_datetime r tl
  end.

Definition sort_values (df : frame) : frame :=
  fold_right insert_by_datetime [] df.

(** ** [prepare_weather_data] *)

(** What a call can raise. *)
Inductive exn : Type :=
| KeyError (key : string)
| ValueError (msg : string).

Definition result (A : Type) : Type := (exn + A)%type.

(** One element of the forecast list: [dt_txt] and [main.temp]. *)
Definition sample : Type := (Z * Q)%type.

(** Lines 42-44: the two-column frame of the samples.  An empty list gives
    a frame without columns, and the column access of line 44 raises. *)
Definition forecast_df (weather_forecast_data : list sample) : result frame :=
  match weather_forecast_data with
  | [] => inl (KeyError "datetime")
  | _ => inr (map (fun item => (fst item, Some (snd item))) weather_forecast_data)
  end.

Fixpoint is_unique (l : list Z) : bool :=
  match l with
  | [] => true
  | x :: tl => negb (existsb (Z.eqb x) tl) && is_unique tl
  end.

(** Line 46: [set_index('datetime').resample('H').interpolate()].  The new
    index runs hourly from the earliest to the latest label; the frame is
    reindexed on it (which pandas refuses when a label occurs twice) and the
    missing cells are interpolated. *)
Definition resample_H_interpolate (df : frame) : result frame :=
  let index := map fst df in
  if is_unique index then
    let lo := col_min 0 index in
    let hi := col_max 0 index in
    inr (on_temp interpolate (reindex (hours_from lo (Z.to_nat (hi - lo + 1))) df))
  else inl (ValueError "cannot reindex on an axis with duplicate labels").

(** Line 50: [datetime - timedelta(hours=5)]. *)
Definition to_central (df : frame) : frame :=
  map (fun r => (fst r - 5, snd r)) df.

(** Line 53. *)
Definition start_date (hourly_forecast_df : frame) : Z :=
  col_min 0 (map fst hourly_forecast_df).

(** Line 54. *)
Definition end_date (hourly_forecast_df : frame) : Z :=
  start_date hourly_forecast_df + days 8.

(** Line 56: [pd.date_range(start, end, freq='H')], both ends included. *)
Definition date_range (start stop : Z) : list Z :=
  hours_from start (Z.to_nat (stop - start + 1)).

(** Lines 56-58: the frame reindexed on the full range, cut before midnight
    of the day of [end_date]. *)
Definition forecast_df_full (hourly_forecast_df : frame) : frame :=
  let full_range :=
    date_range (start_date hourly_forecast_df) (end_date hourly_forecast_df) in
  filter (fun r => fst r <? midnight (dt_date (end_date hourly_forecast_df)))
         (reindex full_range hourly_forecast_df).

(** The grid of timestamps that lines 52-58 build. *)
Definition grid (hourly_forecast_df : frame) : list Z :=
  map fst (forecast_df_full hourly_forecast_df).

(** Line 65: the rows of one hour of the day. *)
Definition hourly_data (df : frame) (hour : Z) : frame :=
  filter (fun r => dt_hour (fst r) =? hour) df.

(** Lines 68-72 on one bucket. *)
Definition fill_hour (bucket : frame) : frame :=
  on_temp ffill (on_temp bfill (on_temp interpolate bucket)).

(** Lines 61-78: the loop over the 24 hours, each bucket appended to
    [interpolated_df], and the final sort. *)
Definition interpolation_engine (df : frame) : frame :=
  sort_values
    (fold_left (fun interpolated_df hour =>
                  interpolated_df ++ fill_hour (hourly_data df hour))
               (hours_from 0 24) []).

(** Lines 81-84: the calendar columns. *)
Record FeatureRow : Type := mkFeatureRow {
  f_datetime : Z;
  f_temp : cell;
  f_Month : Z;
  f_Hour : Z;
  f_Day : Z;
  f_Year : Z
}.

Definition add_calendar (df : frame) : list FeatureRow :=
  map (fun r => mkFeatureRow (fst r) (snd r) (dt_month (fst r))
                             (dt_hour (fst r)) (dt_day (fst r)) (dt_year (fst r))) df.

(** The key [Year, Month, Day]. *)
Definition ymd : Type := (Z * Z * Z)%type.

Definition ymd_eqb (a b : ymd) : bool :=
  let '(y1, m1, d1) := a in
  let '(y2, m2, d2) := b in
  (y1 =? y2) && (m1 =? m2) && (d1 =? d2).

Definition key_of (r : FeatureRow) : ymd := (f_Year r, f_Month r, f_Day r).

(** The distinct keys in order of first appearance; the frame is in
    chronological order, so this is also the sorted order [groupby] uses. *)
Fixpoint group_keys (l : list ymd) : list ymd :=
  match l with
  | [] => []
  | k :: tl => k :: filter (fun k' => negb (ymd_eqb k k')) (group_keys tl)
  end.

(** The known values of a column: the aggregations skip missing cells. *)
Fixpoint dropna (l : list cell) : list Q :=
  match l with
  | [] => []
  | Some v :: tl => v :: dropna tl
  | None :: tl => dropna tl
  end.

Definition agg_max (l : list cell) : cell :=
  match dropna l with [] => None | v :: tl => Some (fold_left Qmax tl v) end.

Definition agg_min (l : list cell) : cell :=
  match dropna l with [] => None | v :: tl => Some (fold_left Qmin tl v) end.

Definition agg_mean (l : list cell) : cell :=
  match dropna l with
  | [] => None
  | v :: tl => Some (fold_left Qplus tl v / inject_Z (Z.of_nat (S (List.length tl))))%Q
  end.

Record DailyStats : Type := mkDailyStats {
  s_key : ymd;
  s_max_temp : cell;
  s_min_temp : cell;
  s_avg_temp : cell
}.

(** The aggregate of one group. *)
Definition day_stats (df : list FeatureRow) (k : ymd) : DailyStats :=
  let temps := map f_temp (filter (fun r => ymd_eqb (key_of r) k) df) in
  mkDailyStats k (agg_max temps) (agg_min temps) (agg_mean temps).

(** Lines 87-91. *)
Definition daily_stats (df : list FeatureRow) : list DailyStats :=
  map (day_stats df) (group_keys (map key_of df)).

(** A row of the frame [prepare_weather_data] returns. *)
Record HourlyRow : Type := mkHourlyRow {
  datetime : Z;
  temp : cell;
  Month : Z;
  Hour : Z;
  Day : Z;
  Year : Z;
  max_temp : cell;
  min_temp : cell;
  avg_temp : cell;
  temp_diff : cell
}.

Definition cell_sub (a b : cell) : cell :=
  match a, b with
  | Some x, Some y => Some (x - y)%Q
  | _, _ => None
  end.

(** A row of the left frame joined with a row of the aggregate, and the
    [temp_diff] column of line 96. *)
Definition joined_row (r : FeatureRow) (s : DailyStats) : HourlyRow :=
  mkHourlyRow (f_datetime r) (f_temp r) (f_Month r) (f_Hour r) (f_Day r) (f_Year r)
              (s_max_temp s) (s_min_temp s) (s_avg_temp s)
              (cell_sub (s_max_temp s) (s_min_temp s)).

(** Lines 94-96: the inner join on the key, in the order of the left frame. *)
Definition merge_stats (df : list FeatureRow) (stats : list DailyStats) : list HourlyRow :=
  flat_map (fun r =>
              map (joined_row r)
                  (filter (fun s => ymd_eqb (s_key s) (key_of r)) stats))
           df.

(** Lines 52-98 on the hourly frame of line 50. *)
Definition prepare_hourly (hourly_forecast_df : frame) : list HourlyRow :=
  let interpolated_df :=
    add_calendar (interpolation_engine (forecast_df_full hourly_forecast_df)) in
  let merged := merge_stats interpolated_df (daily_stats interpolated_df) in
  filter (fun r => midnight (dt_date (start_date hourly_forecast_df) + 1) <=? datetime r)
         merged.

(** Lines 42-50: the samples as an hourly frame in Central Time. *)
Definition hourly_forecast (weather_forecast_data : list sample) : result frame :=
  match forecast_df weather_forecast_data with
  | inl e => inl e
  | inr df =>
      match resample_H_interpolate df with
      | inl e => inl e
      | inr hourly => inr (to_central hourly)
      end
  end.

(** Lines 42-58: the Grid Builder, that is the [datetime] column of
    [forecast_df_full]. *)
Definition grid_builder (weather_forecast_data : list sample) : result (list Z) :=
  match hourly_forecast weather_forecast_data with
  | inl e => inl e
  | inr hourly => inr (grid hourly)
  end.

Definition prepare_weather_data (weather_forecast_data : list sample) : result (list HourlyRow) :=
  match hourly_forecast weather_forecast_data with
  | inl e => inl e
  | inr hourly => inr (prepare_hourly hourly)
  end.

(** ** [predict_ghi] *)

(** One row of [model_features_df]. *)
Record Features : Type := mkFeatures {
  x_Month : Z;
  x_Hour : Z;
  x_temp : cell;
  x_max_temp : cell;
  x_min_temp : cell;
  x_avg_temp : cell;
  x_temp_diff : cell
}.

(** Line 113: the seven feature columns of a row. *)
Definition model_features (r : HourlyRow) : Features :=
  mkFeatures (Month r) (Hour r) (temp r) (max_temp r) (min_temp r) (avg_temp r)
             (temp_diff r).

(** A row once the column [ghi_forecasted] is set. *)
Record GhiRow : Type := mkGhiRow {
  ghi_base : HourlyRow;
  ghi_forecasted : Q
}.

(** Lines 113-117.  [gbm] is the loaded booster: it predicts each row from
    that row's features. *)
Definition predict_ghi (gbm : Features -> Q) (hourly_forecast_df : list HourlyRow) : list GhiRow :=
  map (fun r => mkGhiRow r (gbm (model_features r))) hourly_forecast_df.

(** ** [calculate_power_generation] *)

(** A row once the column [power] is set. *)
Record PowerRow : Type := mkPowerRow {
  power_base : GhiRow;
  power : Q
}.

(** Line 162: [lambda x: 0 if x < 0 else x]. *)
Definition clamp (x : Q) : Q := if Qlt_le_dec x 0 then 0%Q else x.

(** Lines 159-162 and 175; [max_ghi] is what [calculate_max_ghi] returned.
    The division of line 160 has no rational result when [max_ghi] is zero
    (a ZeroDivisionError for a Python number, a non-finite ratio for a NumPy
    scalar): the model returns [None] there.  The plot of lines 164-174 does
    not touch the frame. *)
Definition calculate_power_generation (hourly_forecast_df : list GhiRow) (capacity max_ghi : Q) : option (list PowerRow) :=
  if Qeq_bool max_ghi 0 then None
  else
    let ratio := (capacity / max_ghi)%Q in
    Some (map (fun r => mkPowerRow r (clamp (ghi_forecasted r * ratio)%Q))
              hourly_forecast_df).

(** ** [calculate_optimal_tilt_angle] *)

(** [max(a, b)] of Python: the first of the largest arguments. *)
Definition py_max (a b : Q) : Q := if Qlt_le_dec a b then b else a.

(** Lines 212-217. *)
Definition optimal_angle (lat : Q) (day_of_year : Z) : Q :=
  if (79 <=? day_of_year) && (day_of_year <=? 263) then lat
  else if (356 <=? day_of_year) || (day_of_year <=? 79) then (lat + 15)%Q
  else py_max (lat - 15)%Q 0%Q.

(** Lines 209-220: the day of the year is read from the row labelled 0. *)
Definition calculate_optimal_tilt_angle (hourly_forecast_df : list PowerRow) (lat : Q) : result Q :=
  match hourly_forecast_df with
  | [] => inl (KeyError "0")
  | r :: _ => inr (optimal_angle lat (tm_yday (datetime (ghi_base (power_base r)))))
  end.

(** ** [solar_power_forecast] *)

Definition us_names : list string :=
  ["USA"; "United States"; "United States of America"]%string.

(** What the call gives back: the text it printed itself and its value
    ([None] for Python's [None]); or the exception that escaped. *)
Definition outcome : Type :=
  result (list string * option (list PowerRow * Q)).

(** Lines 238-253.  [country] is what [fetch_location_details] returned,
    [weather_forecast_data] what [fetch_weather_forecast] returned.  The
    result is [None] only where the scaler has no rational result, that is
    for a zero ceiling. *)
Definition solar_power_forecast (country : string) (weather_forecast_data : list sample) (gbm : Features -> Q) (max_ghi : Q) (plant_capacity lat : Q) : option outcome :=
  if negb (existsb (String.eqb country) us_names) then
    Some (inr (["This function currently works with US locations only."%string], None))
  else
    match weather_forecast_data with
    | [] => Some (inr (["Weather forecast data is not available."%string], None))
    | _ =>
        match prepare_weather_data weather_forecast_data with
        | inl e => Some (inl e)
        | inr prepared_data =>
            match calculate_power_generation (predict_ghi gbm prepared_data)
                                             plant_capacity max_ghi with
            | None => None
            | Some hourly_forecast_df =>
                match calculate_optimal_tilt_angle hourly_forecast_df lat with
                | inl e => Some (inl e)
                | inr optimal_tilt_angle =>
                    Some (inr ([], Some (hourly_forecast_df, optimal_tilt_angle)))
                end
            end
        end
    end.

(** ** Notions used in the statements *)

(** A column transformer that keeps the number of rows. *)
Definition keeps_length (f : list cell -> list cell) : Prop :=
  forall l, List.length (f l) = List.length l.

(** Order of two rows by a key. *)
Definition key_lt {A : Type} (key : A -> Z) (a b : A) : Prop := key a < key b.
Definition key_le {A : Type} (key : A -> Z) (a b : A) : Prop := key a <= key b.

(** The timestamps are strictly ascending. *)
Fixpoint is_ascending (l : list Z) : bool :=
  match l with
  | x :: ((y :: _) as tl) => (x <? y) && is_ascending tl
  | _ => true
  end.

(** The bucket of [hour] holds at least one known temperature. *)
Definition bucket_known (df : frame) (hour : Z) : bool :=
  existsb known (map snd (hourly_data df hour)).

(** ** Sample inputs *)

(** Forty three-hourly samples from 2024-01-01 00:00 UTC, alternating
    between 10 and 20 degrees. *)
Definition forecast_40 : list sample :=
  map (fun i => (at_hour 2024 1 1 0 + 3 * Z.of_nat i,
                 if Nat.even i then 10%Q else 20%Q))
      (seq 0 40).

(** The hourly frame of lines 42-50 for a forecast that has one. *)
Definition hourly_of (samples : list sample) : frame :=
  match hourly_forecast samples with inr h => h | inl _ => [] end.

(** A forecast of one sample. *)
Definition forecast_1 : list sample := [(at_hour 2024 1 1 0, 10%Q)].

(** A grid of thirty hours without gaps. *)
Definition gap_free_30 : frame :=
  map (fun t => (t, Some (inject_Z (t mod 7)))) (hours_from (at_hour 2024 1 1 5) 30).

(** The frame of hour 5 to 7 of 2024-06-01, after the model has run, with one
    negative prediction. *)
Definition ghi_rows_3 : list GhiRow :=
  map (fun i =>
         let t := at_hour 2024 6 1 5 + Z.of_nat i in
         mkGhiRow (mkHourlyRow t (Some 20%Q) (dt_month t) (dt_hour t) (dt_day t)
                               (dt_year t) (Some 25%Q) (Some 15%Q) (Some 20%Q)
                               (Some 10%Q))
                  (inject_Z (Z.of_nat i) * 100 - 5)%Q)
      (seq 0 3).

(** ** [fetch_weather_forecast] *)

(** Lines 22-28.  [status_code] is the status of the response and [body] the
    samples under the key [list] of its JSON. *)
Definition fetch_weather_forecast (status_code : Z) (body : list sample) : list sample :=
  if status_code =? 200 then body else [].

(** ** [calculate_max_ghi] *)

(** Lines 134-142.  [adjusted] is the value of line 138, the largest monthly
    average plus the standard deviation of the twelve, times 100; the
    standard deviation is a square root and is taken as given. *)
Definition calculate_max_ghi (status_code : Z) (adjusted : Q) : Q :=
  if status_code =? 200 then adjusted else 1000%Q.

(** ** The script *)

(** What line 267 leaves behind: the two names bound, a [TypeError] from
    unpacking [None], or the exception that came out of the call. *)
Inductive script_outcome : Type :=
| Bound (forecast : list PowerRow) (optimal_tilt_angle : Q)
| TypeError_unpack
| Escaped (e : exn).

(** Line 267: [forecast, optimal_tilt_angle = spf(...)]. *)
Definition unpack (o : outcome) : script_outcome :=
  match o with
  | inl e => Escaped e
  | inr (_, None) => TypeError_unpack
  | inr (_, Some (forecast, optimal_tilt_angle)) => Bound forecast optimal_tilt_angle
  end.

(** Lines 262-267, with plant capacity 100 and latitude 40.7128. *)
Definition script (country : string) (status_code : Z) (body : list sample) (gbm : Features -> Q) (max_ghi : Q) : option script_outcome :=
  option_map unpack
             (solar_power_forecast country (fetch_weather_forecast status_code body)
                                   gbm max_ghi 100%Q (407128 # 10000)%Q).

(** ** [fetch_location_details] *)

(** A Python string is the list of its code points. *)
Definition comma : Z := 44.

(** [str.isspace] on one code point: the characters [strip] removes. *)
Definition is_space (c : Z) : bool :=
  ((9 <=? c) && (c <=? 13)) || ((28 <=? c) && (c <=? 32))
  || (c =? 133) || (c =? 160) || (c =? 5760)
  || ((8192 <=? c) && (c <=? 8202))
  || (c =? 8232) || (c =? 8233) || (c =? 8239) || (c =? 8287) || (c =? 12288).

(** [s.split(sep)] for a separator of one character: the fields between the
    separators, at least one. *)
Fixpoint split_on (sep : Z) (s : list Z) : list (list Z) :=
  match s with
  | [] => [[]]
  | c :: tl =>
      if c =? sep then [] :: split_on sep tl
      else match split_on sep tl with
           | f :: fs => (c :: f) :: fs
           | [] => [[c]]
           end
  end.

(** [s.lstrip()] *)
Fixpoint lstrip (s : list Z) : list Z :=
  match s with
  | [] => []
  | c :: tl => if is_space c then lstrip tl else s
  end.

(** [s.rstrip()] *)
Definition rstrip (s : list Z) : list Z := rev (lstrip (rev s)).

(** [s.strip()] *)
Definition strip (s : list Z) : list Z := lstrip (rstrip s).

(** Line 192 on the address the geocoder returned:
    [location[0].split(',')[-1].strip()]. *)
Definition fetch_location_details (address : list Z) : list Z :=
  strip (last (split_on comma address) []).

(** The code points of an ASCII text. *)
Definition code_points (s : string) : list Z :=
  map (fun a => Z.of_nat (Ascii.nat_of_ascii a)) (list_ascii_of_string s).

(** ** Further notions used in the statements *)

(** Every known cell of the column lies between [lo] and [hi]. *)
Definition cells_within (lo hi : Q) (l : list cell) : Prop :=
  forall v, In (Some v) l -> (lo <= v <= hi)%Q.

(** Cell by cell, a known cell of the first column is the same in the second. *)
Definition keeps_known (l l' : list cell) : Prop :=
  Forall2 (fun c c' => known c = true -> c' = c) l l'.

(** A forecast of three samples over six hours. *)
Definition forecast_3 : list sample :=
  [(at_hour 2024 1 1 0, 10%Q); (at_hour 2024 1 1 3, 16%Q); (at_hour 2024 1 1 6, 13%Q)].

(** * Properties *)

(** ** Hour ranges *)

Lemma hours_from_length lo n : List.length (hours_from lo n) = n.
Proof. unfold hours_from. now rewrite length_map, length_seq. Qed.

Lemma hours_from_S lo n : hours_from lo (S n) = lo :: hours_from (lo + 1) n.
Proof.
  unfold hours_from. simpl. rewrite Z.add_0_r. f_equal.
  rewrite <- seq_shift, map_map. apply map_ext. intros i. lia.
Qed.

Lemma hours_from_app lo a b :
  hours_from lo (a + b) = hours_from lo a ++ hours_from (lo + Z.of_nat a) b.
Proof.
  revert lo. induction a as [|a IH]; intros lo.
  - simpl. now rewrite Z.add_0_r.
  - change (S a + b)%nat with (S (a + b)). rewrite !hours_from_S, IH. simpl.
    do 3 f_equal. lia.
Qed.

Lemma hours_from_In lo n t :
  In t (hours_from lo n) <-> lo <= t < lo + Z.of_nat n.
Proof.
  unfold hours_from. rewrite in_map_iff. split.
  - intros (i & <- & Hi). apply in_seq in Hi. lia.
  - intros H. exists (Z.to_nat (t - lo)). split; [lia|]. apply in_seq. lia.
Qed.

Lemma hours_from_sorted lo n : StronglySorted Z.lt (hours_from lo n).
Proof.
  revert lo. induction n as [|n IH]; intros lo.
  - constructor.
  - rewrite hours_from_S. constructor; [apply IH|].
    apply Forall_forall. intros t Ht. apply hours_from_In in Ht. lia.
Qed.

Lemma filter_all {A} (p : A -> bool) l :
  (forall x, In x l -> p x = true) -> filter p l = l.
Proof.
  induction l as [|a l IH]; intros H; simpl; [easy|].
  rewrite (H a (or_introl eq_refl)), IH; [easy|]. intros; apply H; now right.
Qed.

Lemma filter_none {A} (p : A -> bool) l :
  (forall x, In x l -> p x = false) -> filter p l = [].
Proof.
  induction l as [|a l IH]; intros H; simpl; [easy|].
  rewrite (H a (or_introl eq_refl)), IH; [easy|]. intros; apply H; now right.
Qed.

(** Keeping the hours before [m] keeps a prefix. *)
Lemma filter_before lo n m :
  lo <= m <= lo + Z.of_nat n ->
  filter (fun t => t <? m) (hours_from lo n) = hours_from lo (Z.to_nat (m - lo)).
Proof.
  intros H.
  replace n with (Z.to_nat (m - lo) + (n - Z.to_nat (m - lo)))%nat at 1 by lia.
  rewrite hours_from_app, filter_app, filter_all, filter_none.
  - apply app_nil_r.
  - intros t Ht. apply hours_from_In in Ht. apply Z.ltb_ge. lia.
  - intros t Ht. apply hours_from_In in Ht. apply Z.ltb_lt. lia.
Qed.

(** Keeping the hours from [m] on keeps a suffix. *)
Lemma filter_from lo n m :
  lo <= m <= lo + Z.of_nat n ->
  filter (fun t => m <=? t) (hours_from lo n)
  = hours_from m (n - Z.to_nat (m - lo)).
Proof.
  intros H.
  replace n with (Z.to_nat (m - lo) + (n - Z.to_nat (m - lo)))%nat at 1 by lia.
  rewrite hours_from_app, filter_app, filter_none, filter_all.
  - simpl. f_equal. lia.
  - intros t Ht. apply hours_from_In in Ht. apply Z.leb_le. lia.
  - intros t Ht. apply hours_from_In in Ht. apply Z.leb_gt. lia.
Qed.

(** ** Column minimum and maximum *)

Lemma fold_min_le l x : fold_left Z.min l x <= x.
Proof.
  revert x. induction l as [|a l IH]; intros x; simpl; [lia|].
  specialize (IH (Z.min x a)). lia.
Qed.

Lemma fold_max_ge l x : x <= fold_left Z.max l x.
Proof.
  revert x. induction l as [|a l IH]; intros x; simpl; [lia|].
  specialize (IH (Z.max x a)). lia.
Qed.

Lemma fold_min_lower l x b :
  b <= x -> (forall y, In y l -> b <= y) -> b <= fold_left Z.min l x.
Proof.
  revert x. induction l as [|a l IH]; intros x Hx H; simpl; [easy|].
  apply IH; [|intros; apply H; now right].
  specialize (H a (or_introl eq_refl)). lia.
Qed.

Lemma col_min_le_max d l : col_min d l <= col_max d l.
Proof.
  destruct l as [|x tl]; simpl; [lia|].
  pose proof (fold_min_le tl x). pose proof (fold_max_ge tl x). lia.
Qed.

Lemma col_min_hours_from d lo n : (0 < n)%nat -> col_min d (hours_from lo n) = lo.
Proof.
  destruct n as [|n]; [lia|]. intros _. rewrite hours_from_S. simpl.
  apply Z.le_antisymm; [apply fold_min_le|].
  apply fold_min_lower; [lia|]. intros y Hy. apply hours_from_In in Hy. lia.
Qed.

(** ** Frames *)

Lemma reindex_index index df : map fst (reindex index df) = index.
Proof. unfold reindex. rewrite map_map. simpl. apply map_id. Qed.

Lemma combine_fst_snd {A B} (l : list (A * B)) : combine (map fst l) (map snd l) = l.
Proof. induction l as [|[a b] l IH]; simpl; [easy|now rewrite IH]. Qed.

Lemma map_fst_combine {A B} (l : list A) (l' : list B) :
  List.length l = List.length l' -> map fst (combine l l') = l.
Proof.
  revert l'. induction l as [|a l IH]; intros [|b l'] H; simpl in *; try easy.
  f_equal. apply IH. lia.
Qed.

Lemma map_snd_combine {A B} (l : list A) (l' : list B) :
  List.length l = List.length l' -> map snd (combine l l') = l'.
Proof.
  revert l'. induction l as [|a l IH]; intros [|b l'] H; simpl in *; try easy.
  f_equal. apply IH. lia.
Qed.

Lemma interpolate_from_length prev l :
  List.length (interpolate_from prev l) = List.length l.
Proof.
  revert prev. induction l as [|[v|] l IH]; intros prev; simpl; [easy|now rewrite IH|].
  destruct prev as [[a d]|]; simpl; now rewrite IH.
Qed.

Lemma bfill_length l : List.length (bfill l) = List.length l.
Proof. induction l as [|[v|] l IH]; simpl; now rewrite ?IH. Qed.

Lemma ffill_from_length prev l : List.length (ffill_from prev l) = List.length l.
Proof.
  revert prev. induction l as [|[v|] l IH]; intros prev; simpl; now rewrite ?IH.
Qed.

Lemma interpolate_keeps : keeps_length interpolate.
Proof. intros l. apply interpolate_from_length. Qed.

Lemma bfill_keeps : keeps_length bfill.
Proof. intros l. apply bfill_length. Qed.

Lemma ffill_keeps : keeps_length ffill.
Proof. intros l. apply ffill_from_length. Qed.

Lemma on_temp_fst f df : keeps_length f -> map fst (on_temp f df) = map fst df.
Proof.
  intros Hf. unfold on_temp. apply map_fst_combine. now rewrite Hf, !length_map.
Qed.

Lemma on_temp_snd f df : keeps_length f -> map snd (on_temp f df) = f (map snd df).
Proof.
  intros Hf. unfold on_temp. apply map_snd_combine. now rewrite Hf, !length_map.
Qed.

Lemma fill_hour_fst b : map fst (fill_hour b) = map fst b.
Proof.
  unfold fill_hour.
  now rewrite !on_temp_fst by auto using interpolate_keeps, bfill_keeps, ffill_keeps.
Qed.

Lemma fill_hour_snd b :
  map snd (fill_hour b) = ffill (bfill (interpolate (map snd b))).
Proof.
  unfold fill_hour.
  now rewrite !on_temp_snd by auto using interpolate_keeps, bfill_keeps, ffill_keeps.
Qed.

(** ** The grid of lines 52-58 *)

Lemma midnight_of_end s :
  midnight (dt_date (s + days 8)) = s + (192 - dt_hour s).
Proof.
  unfold midnight, dt_date, dt_hour, days.
  replace (s + 24 * 8) with (s + 8 * 24) by lia.
  rewrite Z.div_add by lia. pose proof (Z.div_mod s 24). lia.
Qed.

Lemma midnight_next_day s :
  midnight (dt_date s + 1) = s + (24 - dt_hour s).
Proof.
  unfold midnight, dt_date, dt_hour. pose proof (Z.div_mod s 24). lia.
Qed.

Lemma dt_hour_range t : 0 <= dt_hour t < 24.
Proof. unfold dt_hour. apply Z.mod_pos_bound. lia. Qed.

Lemma map_filter {A B} (f : A -> B) (p : B -> bool) l :
  map f (filter (fun x => p (f x)) l) = filter p (map f l).
Proof.
  induction l as [|a l IH]; simpl; [easy|]. destruct (p (f a)); simpl; now rewrite IH.
Qed.

(** Whatever the frame holds, the grid is the run of consecutive hours from
    its earliest timestamp to the last hour before midnight of the day eight
    days on. *)
Lemma grid_hours df :
  grid df = hours_from (start_date df) (Z.to_nat (192 - dt_hour (start_date df))).
Proof.
  unfold grid, forecast_df_full, end_date, date_range.
  set (s := start_date df).
  pose proof (dt_hour_range s) as Hh.
  assert (Hm := midnight_of_end s).
  rewrite (map_filter fst (fun t => t <? midnight (dt_date (s + days 8)))).
  rewrite reindex_index, filter_before.
  - f_equal. rewrite Hm. lia.
  - rewrite Hm. unfold days. lia.
Qed.

(** ** Sorting *)

Section SortedByKey.
Context {A : Type} (key : A -> Z).

Lemma sorted_map_lt l :
  StronglySorted Z.lt (map key l) <-> StronglySorted (key_lt key) l.
Proof.
  induction l as [|a l IH]; simpl; split; intros H; try constructor;
    inversion H as [|? ? Hs Hf]; subst.
  - now apply IH.
  - rewrite Forall_map in Hf. exact Hf.
  - now apply IH.
  - rewrite Forall_map. exact Hf.
Qed.

Lemma sorted_map_le l :
  StronglySorted (key_le key) l -> StronglySorted Z.le (map key l).
Proof.
  induction 1 as [|a l Hs IH Hf]; simpl; constructor; [exact IH|].
  rewrite Forall_map. exact Hf.
Qed.

(** A list without repeated keys has one sorted arrangement only. *)
Lemma sorted_perm_eq l1 :
  forall l2, StronglySorted (key_lt key) l1 -> StronglySorted (key_le key) l2 ->
             Permutation l1 l2 -> l1 = l2.
Proof.
  induction l1 as [|a l1 IH]; intros l2 H1 H2 HP.
  - apply Permutation_nil in HP. now subst.
  - destruct l2 as [|b l2].
    { apply Permutation_sym, Permutation_nil in HP. discriminate. }
    inversion H1 as [|? ? Hs1 Hf1]; subst.
    inversion H2 as [|? ? Hs2 Hf2]; subst.
    rewrite Forall_forall in Hf1, Hf2.
    assert (Hb : In b (a :: l1)).
    { apply (Permutation_in b (Permutation_sym HP)). now left. }
    assert (Ha : In a (b :: l2)).
    { apply (Permutation_in a HP). now left. }
    assert (a = b) as <-.
    { destruct Hb as [Hb|Hb]; [exact Hb|]. apply Hf1 in Hb. unfold key_lt in Hb.
      destruct Ha as [Ha|Ha]; [now symmetry|]. apply Hf2 in Ha. unfold key_le in Ha. lia. }
    f_equal. apply IH; auto. now apply Permutation_cons_inv in HP.
Qed.
End SortedByKey.

Lemma insert_by_datetime_perm r df : Permutation (insert_by_datetime r df) (r :: df).
Proof.
  induction df as [|r' df IH]; simpl; [easy|].
  destruct (fst r <=? fst r'); [easy|].
  rewrite IH. apply perm_swap.
Qed.

Lemma sort_values_perm df : Permutation (sort_values df) df.
Proof.
  induction df as [|r df IH]; simpl; [easy|].
  rewrite insert_by_datetime_perm. now constructor.
Qed.

Lemma insert_by_datetime_sorted r df :
  StronglySorted (key_le fst) df -> StronglySorted (key_le fst) (insert_by_datetime r df).
Proof.
  induction 1 as [|r' df Hs IH Hf]; simpl.
  - repeat constructor.
  - destruct (Z.leb_spec (fst r) (fst r')) as [Hle|Hgt].
    + constructor; [now constructor|]. constructor; [exact Hle|].
      eapply Forall_impl; [|exact Hf]. unfold key_le. intros; simpl in *; lia.
    + constructor; [exact IH|].
      apply Forall_forall. intros x Hx.
      apply (Permutation_in x (insert_by_datetime_perm r df)) in Hx.
      destruct Hx as [<-|Hx]; [unfold key_le; lia|].
      rewrite Forall_forall in Hf. now apply Hf.
Qed.

Lemma sort_values_sorted df : StronglySorted (key_le fst) (sort_values df).
Proof.
  induction df as [|r df IH]; simpl; [constructor|].
  now apply insert_by_datetime_sorted.
Qed.

(** Sorting any rearrangement of a chronological frame gives the frame back. *)
Lemma sort_values_restores df df' :
  StronglySorted Z.lt (map fst df) -> Permutation df df' -> sort_values df' = df.
Proof.
  intros Hs HP. symmetry. apply (sorted_perm_eq fst).
  - now apply sorted_map_lt.
  - apply sort_values_sorted.
  - rewrite HP. symmetry. apply sort_values_perm.
Qed.

(** The same for the [datetime] column alone. *)
Lemma sort_values_datetimes index df' :
  StronglySorted Z.lt index -> Permutation index (map fst df') ->
  map fst (sort_values df') = index.
Proof.
  intros Hs HP. symmetry. apply (sorted_perm_eq (fun t => t)).
  - apply sorted_map_lt. now rewrite map_id.
  - pose proof (sorted_map_le fst _ (sort_values_sorted df')) as H.
    clear -H. induction H; constructor; auto.
  - rewrite HP. apply Permutation_map. symmetry. apply sort_values_perm.
Qed.

(** ** Buckets *)

Lemma fold_left_append {A B} (f : B -> list A) (l : list B) (acc : list A) :
  fold_left (fun acc x => acc ++ f x) l acc = acc ++ List.concat (map f l).
Proof.
  revert acc. induction l as [|x l IH]; intros acc; simpl.
  - now rewrite app_nil_r.
  - now rewrite IH, app_assoc.
Qed.

(** Splitting a list by a key with finitely many values, bucket after bucket,
    rearranges the list. *)
Lemma buckets_perm {A} (key : A -> Z) (l : list A) (hs : list Z) :
  NoDup hs ->
  Permutation (List.concat (map (fun h => filter (fun r => key r =? h) l) hs))
              (filter (fun r => existsb (Z.eqb (key r)) hs) l).
Proof.
  induction 1 as [|h hs Hh Hnd IH]; simpl.
  - now rewrite filter_none.
  - rewrite IH. clear IH Hnd.
    induction l as [|a l IHl]; simpl; [easy|].
    destruct (Z.eqb_spec (key a) h) as [E|E]; simpl.
    + replace (existsb (Z.eqb (key a)) hs) with false; [now constructor|].
      symmetry. apply not_true_is_false. intros Hex.
      apply existsb_exists in Hex as (x & Hx & Hxe). apply Z.eqb_eq in Hxe. congruence.
    + destruct (existsb (Z.eqb (key a)) hs); [|exact IHl].
      rewrite <- IHl. symmetry. apply Permutation_middle.
Qed.

Lemma hours_of_day_perm (df : frame) :
  Permutation (List.concat (map (hourly_data df) (hours_from 0 24))) df.
Proof.
  unfold hourly_data.
  rewrite (buckets_perm (fun r => dt_hour (fst r)) df (hours_from 0 24)).
  - rewrite filter_all; [easy|]. intros r _. apply existsb_exists.
    exists (dt_hour (fst r)). split; [|apply Z.eqb_refl].
    apply hours_from_In. pose proof (dt_hour_range (fst r)). lia.
  - pose proof (hours_from_sorted 0 24) as H.
    apply StronglySorted_Sorted, Sorted_LocallySorted_iff in H.
    clear -H. vm_compute. repeat (constructor; [simpl; intuition lia|]). constructor.
Qed.

(** The loop body in closed form. *)
Lemma interpolation_engine_eq df :
  interpolation_engine df
  = sort_values (List.concat (map (fun h => fill_hour (hourly_data df h)) (hours_from 0 24))).
Proof. unfold interpolation_engine. now rewrite fold_left_append. Qed.

Lemma concat_map_map {A B C} (f : B -> C) (g : A -> list B) l :
  map f (List.concat (map g l)) = List.concat (map (fun x => map f (g x)) l).
Proof. rewrite List.concat_map, map_map. reflexivity. Qed.

(** The engine keeps the [datetime] column of a chronological frame. *)
Lemma interpolation_engine_datetimes df :
  StronglySorted Z.lt (map fst df) ->
  map fst (interpolation_engine df) = map fst df.
Proof.
  intros Hs. rewrite interpolation_engine_eq. apply sort_values_datetimes; [exact Hs|].
  rewrite concat_map_map.
  rewrite (map_ext _ (fun h => map fst (hourly_data df h))) by (intros; apply fill_hour_fst).
  rewrite <- (concat_map_map fst (hourly_data df)). apply Permutation_map.
  symmetry. apply hours_of_day_perm.
Qed.

(** ** Filling a column *)

Lemma interpolate_from_known prev l :
  forallb known l = true -> interpolate_from prev l = l.
Proof.
  revert prev. induction l as [|[v|] l IH]; intros prev H; simpl in *; try easy.
  now rewrite IH.
Qed.

Lemma bfill_known l : forallb known l = true -> bfill l = l.
Proof. induction l as [|[v|] l IH]; intros H; simpl in *; try easy. now rewrite IH. Qed.

Lemma ffill_from_known prev l : forallb known l = true -> ffill_from prev l = l.
Proof.
  revert prev. induction l as [|[v|] l IH]; intros prev H; simpl in *; try easy.
  now rewrite IH.
Qed.

(** A bucket without gaps is left as it is. *)
Lemma fill_hour_known b : forallb known (map snd b) = true -> fill_hour b = b.
Proof.
  intros H. unfold fill_hour, on_temp at 3, interpolate.
  rewrite interpolate_from_known, combine_fst_snd by exact H.
  unfold on_temp at 2. rewrite bfill_known, combine_fst_snd by exact H.
  unfold on_temp, ffill. rewrite ffill_from_known, combine_fst_snd by exact H.
  reflexivity.
Qed.

(** Interpolation never erases a known cell. *)
Lemma interpolate_from_keeps_known prev l :
  existsb known l = true -> existsb known (interpolate_from prev l) = true.
Proof.
  revert prev. induction l as [|[v|] l IH]; intros prev H; simpl in *; try easy.
  destruct prev as [[a d]|]; simpl.
  - destruct (next_known l) as [[m b]|]; reflexivity.
  - now apply IH.
Qed.

Lemma next_known_some l :
  existsb known l = true -> exists n v, next_known l = Some (n, v).
Proof.
  induction l as [|[v|] l IH]; intros H; simpl in *; try easy.
  - now exists O, v.
  - destruct (IH H) as (n & v & ->). now exists (S n), v.
Qed.

Lemma ffill_from_some v l : forallb known (ffill_from (Some v) l) = true.
Proof.
  revert v. induction l as [|[w|] l IH]; intros v; simpl; auto.
Qed.

(** Backward fill then forward fill leaves no gap once one cell is known. *)
Lemma ffill_bfill_known prev l :
  existsb known l = true -> forallb known (ffill_from prev (bfill l)) = true.
Proof.
  revert prev. induction l as [|[v|] l IH]; intros prev H; simpl in *; try easy.
  - apply ffill_from_some.
  - destruct (next_known_some l H) as (n & v & ->). simpl. apply ffill_from_some.
Qed.

Lemma fill_column_known l :
  existsb known l = true -> forallb known (ffill (bfill (interpolate l))) = true.
Proof.
  intros H. apply ffill_bfill_known. now apply interpolate_from_keeps_known.
Qed.

(** A column with no known cell comes out of the three fills as it went in. *)
Lemma fill_column_missing l :
  existsb known l = false -> ffill (bfill (interpolate l)) = l.
Proof.
  unfold ffill, interpolate. induction l as [|[v|] l IH]; intros H; simpl in *; try easy.
  assert (Hn : forall l', existsb known l' = false -> next_known l' = None).
  { clear. induction l' as [|[v|] l' IH]; simpl; intros H; try easy. now rewrite IH. }
  assert (Hi : interpolate_from None l = l).
  { clear -H. induction l as [|[v|] l IH]; simpl in *; try easy. now rewrite IH. }
  rewrite Hi, (Hn l H). simpl. f_equal.
  rewrite Hi in IH. now apply IH.
Qed.

Lemma existsb_known_false l :
  existsb known l = false <-> (forall c, In c l -> c = None).
Proof.
  induction l as [|[v|] l IH]; simpl; split; intros H; try easy.
  - specialize (H (Some v) (or_introl eq_refl)). discriminate.
  - intros c [<-|Hc]; [easy|]. now apply IH.
  - apply IH. intros c Hc. apply H. now right.
Qed.

Lemma forallb_known_true l :
  forallb known l = true <-> (forall c, In c l -> c <> None).
Proof.
  rewrite forallb_forall. split; intros H c Hc; specialize (H c Hc); now destruct c.
Qed.

(** ** Rows of the engine's output *)

(** Every output row comes from the filled bucket of its hour. *)
Lemma interpolation_engine_In df r :
  In r (interpolation_engine df) ->
  In r (fill_hour (hourly_data df (dt_hour (fst r)))).
Proof.
  rewrite interpolation_engine_eq. intros H.
  apply (Permutation_in r (sort_values_perm _)) in H.
  apply in_concat in H as (b & Hb & Hr).
  apply in_map_iff in Hb as (h & <- & _).
  assert (Hh : dt_hour (fst r) = h).
  { assert (Hin : In (fst r) (map fst (fill_hour (hourly_data df h)))) by now apply in_map.
    rewrite fill_hour_fst in Hin. apply in_map_iff in Hin as (r' & Hf & Hr').
    unfold hourly_data in Hr'. apply filter_In in Hr' as [_ Hr'].
    apply Z.eqb_eq in Hr'. now rewrite <- Hf. }
  now rewrite Hh.
Qed.

Lemma hourly_data_In df h r :
  In r (hourly_data df h) <-> In r df /\ dt_hour (fst r) = h.
Proof. unfold hourly_data. rewrite filter_In, Z.eqb_eq. reflexivity. Qed.

(** ** Daily aggregates and the join *)

Lemma ymd_eqb_eq a b : ymd_eqb a b = true <-> a = b.
Proof.
  destruct a as [[y1 m1] d1], b as [[y2 m2] d2]. unfold ymd_eqb.
  rewrite !andb_true_iff, !Z.eqb_eq. split; [intros [[-> ->] ->]|intros [= -> -> ->]]; auto.
Qed.

Lemma ymd_eqb_refl a : ymd_eqb a a = true.
Proof. now apply ymd_eqb_eq. Qed.

(** Each key of the frame occurs once among the group keys. *)
Lemma group_keys_once l k :
  In k l -> filter (fun k' => ymd_eqb k' k) (group_keys l) = [k].
Proof.
  induction l as [|a l IH]; intros H; [easy|]. simpl.
  destruct (ymd_eqb a k) eqn:E.
  - apply ymd_eqb_eq in E as ->. f_equal. apply filter_none.
    intros x Hx. apply filter_In in Hx as [_ Hx].
    destruct (ymd_eqb x k) eqn:E'; [|easy].
    apply ymd_eqb_eq in E' as ->. now rewrite ymd_eqb_refl in Hx.
  - destruct H as [->|H]; [now rewrite ymd_eqb_refl in E|].
    rewrite <- (IH H). clear IH H.
    induction (group_keys l) as [|x g IHg]; simpl; [easy|].
    destruct (ymd_eqb a x) eqn:Ea; simpl.
    + apply ymd_eqb_eq in Ea as <-. now rewrite E.
    + destruct (ymd_eqb x k); now rewrite IHg.
Qed.

Lemma flat_map_singleton {A B} (f : A -> list B) (g : A -> B) l :
  (forall x, In x l -> f x = [g x]) -> flat_map f l = map g l.
Proof.
  induction l as [|a l IH]; intros H; simpl; [easy|].
  rewrite (H a (or_introl eq_refl)), IH; [easy|]. intros; apply H; now right.
Qed.

(** The join finds one aggregate row for every hourly row. *)
Lemma merge_stats_rows df :
  merge_stats df (daily_stats df)
  = map (fun r => joined_row r (day_stats df (key_of r))) df.
Proof.
  unfold merge_stats, daily_stats. apply flat_map_singleton. intros r Hr.
  rewrite <- (map_filter (day_stats df) (fun s => ymd_eqb (s_key s) (key_of r))).
  simpl. rewrite group_keys_once; [easy|]. now apply in_map.
Qed.

Lemma add_calendar_datetimes df : map f_datetime (add_calendar df) = map fst df.
Proof. unfold add_calendar. rewrite map_map. reflexivity. Qed.

(** The rows [prepare_weather_data] returns, one per row of the engine's
    output from the day after the start day on. *)
Lemma prepare_hourly_rows h :
  prepare_hourly h
  = let df := add_calendar (interpolation_engine (forecast_df_full h)) in
    map (fun r => joined_row r (day_stats df (key_of r)))
        (filter (fun r => midnight (dt_date (start_date h) + 1) <=? f_datetime r) df).
Proof.
  unfold prepare_hourly. cbv zeta. rewrite merge_stats_rows.
  set (df := add_calendar _). set (m := midnight _).
  set (j := fun r => joined_row r (day_stats df (key_of r))).
  change (fun r => m <=? datetime r) with (fun r => (fun t => m <=? t) (datetime r)).
  change (fun r => m <=? f_datetime r) with (fun r => (fun t => m <=? t) (f_datetime r)).
  generalize df at 1 2. intros l.
  induction l as [|r l IH]; [easy|]. cbn [map filter].
  change (datetime (j r)) with (f_datetime r).
  destruct (m <=? f_datetime r); cbn [map]; now rewrite IH.
Qed.

Lemma forecast_df_full_sorted h : StronglySorted Z.lt (map fst (forecast_df_full h)).
Proof. change (StronglySorted Z.lt (grid h)). rewrite grid_hours. apply hours_from_sorted. Qed.

(** The [datetime] column of the result. *)
Lemma prepare_hourly_datetimes h :
  map datetime (prepare_hourly h)
  = hours_from (midnight (dt_date (start_date h) + 1)) 168.
Proof.
  rewrite prepare_hourly_rows. cbv zeta. rewrite map_map.
  rewrite (map_ext _ f_datetime) by reflexivity.
  rewrite (map_filter f_datetime (fun t => midnight (dt_date (start_date h) + 1) <=? t)).
  rewrite add_calendar_datetimes, interpolation_engine_datetimes
    by apply forecast_df_full_sorted.
  change (map fst (forecast_df_full h)) with (grid h). rewrite grid_hours.
  pose proof (dt_hour_range (start_date h)) as Hh.
  pose proof (midnight_next_day (start_date h)) as Hm.
  rewrite filter_from by lia. f_equal. lia.
Qed.

Lemma prepare_hourly_length h : List.length (prepare_hourly h) = 168%nat.
Proof.
  rewrite <- (length_map datetime), prepare_hourly_datetimes. apply hours_from_length.
Qed.

(** ** The hourly frame of lines 42-50 *)

Lemma hours_from_shift lo n k :
  map (fun t => t - k) (hours_from lo n) = hours_from (lo - k) n.
Proof. unfold hours_from. rewrite map_map. apply map_ext. intros; lia. Qed.

Lemma to_central_datetimes df : map fst (to_central df) = map (fun t => t - 5) (map fst df).
Proof. unfold to_central. rewrite !map_map. reflexivity. Qed.

Lemma forecast_df_inv samples df :
  forecast_df samples = inr df -> samples <> [] /\ map fst df = map fst samples.
Proof.
  destruct samples as [|s0 tl]; [discriminate|]. unfold forecast_df.
  intros [= <-]. split; [discriminate|]. cbn [map fst]. f_equal.
  rewrite map_map. reflexivity.
Qed.

Lemma resample_H_interpolate_inv df hourly :
  resample_H_interpolate df = inr hourly ->
  is_unique (map fst df) = true
  /\ map fst hourly
     = hours_from (col_min 0 (map fst df))
                  (Z.to_nat (col_max 0 (map fst df) - col_min 0 (map fst df) + 1)).
Proof.
  unfold resample_H_interpolate. destruct (is_unique (map fst df)); [|discriminate].
  intros [= <-]. split; [reflexivity|].
  rewrite on_temp_fst by apply interpolate_keeps. apply reindex_index.
Qed.

Lemma hourly_forecast_inv samples h :
  hourly_forecast samples = inr h ->
  samples <> [] /\ is_unique (map fst samples) = true
  /\ start_date h = col_min 0 (map fst samples) - 5.
Proof.
  unfold hourly_forecast.
  destruct (forecast_df samples) as [e|df] eqn:Ef; [discriminate|].
  destruct (resample_H_interpolate df) as [e|hourly] eqn:Er; [discriminate|].
  intros [= <-].
  apply forecast_df_inv in Ef as [Hne Hk].
  apply resample_H_interpolate_inv in Er as [Hu Hh]. rewrite Hk in Hu, Hh.
  repeat split; auto.
  unfold start_date. rewrite to_central_datetimes, Hh, hours_from_shift.
  apply col_min_hours_from.
  pose proof (col_min_le_max 0 (map fst samples)). lia.
Qed.

Lemma hourly_forecast_total samples :
  samples <> [] -> is_unique (map fst samples) = true ->
  exists h, hourly_forecast samples = inr h.
Proof.
  intros Hne Hu. unfold hourly_forecast.
  destruct (forecast_df samples) as [e|df] eqn:Ef.
  - destruct samples; [easy|discriminate].
  - apply forecast_df_inv in Ef as [_ Hk]. unfold resample_H_interpolate.
    rewrite Hk, Hu. eauto.
Qed.

(** ** Worked examples *)

Example clock_epoch : civil_from_days 0 = (1970, 1, 1).
Proof. reflexivity. Qed.

Example clock_leap_day : civil_from_days 19782 = (2024, 2, 29).
Proof. reflexivity. Qed.

Example clock_new_year : days_from_civil 2024 1 1 = 19723.
Proof. reflexivity. Qed.

Example clock_yday_march21 : tm_yday (at_hour 2023 3 21 7) = 80.
Proof. reflexivity. Qed.

Example clock_yday_dec31_leap : tm_yday (at_hour 2024 12 31 23) = 366.
Proof. reflexivity. Qed.

Example interpolate_ex :
  interpolate [None; Some 10%Q; None; None; Some 16%Q; None]
  = [None; Some 10%Q; Some (10 + (16 - 10) * (1 / 3))%Q;
     Some (10 + (16 - 10) * (2 / 3))%Q; Some 16%Q; Some 16%Q].
Proof. reflexivity. Qed.

Example bfill_ffill_ex :
  ffill (bfill [None; Some 1%Q; None; Some 2%Q; None])
  = [Some 1%Q; Some 1%Q; Some 2%Q; Some 2%Q; Some 2%Q].
Proof. reflexivity. Qed.


Example forecast_40_rows :
  option_map (@List.length HourlyRow)
             (match prepare_weather_data forecast_40 with inr t => Some t | inl _ => None end)
  = Some 168%nat.
Proof. vm_compute. reflexivity. Qed.

(** ** The Grid Builder *)

Lemma ascending_unique l : is_ascending l = true -> is_unique l = true.
Proof.
  assert (H : forall l x, is_ascending (x :: l) = true ->
                          (forall y, In y l -> x < y) /\ is_ascending l = true).
  { clear. induction l as [|a l IH]; intros x Hx; [now split|].
    change (((x <? a) && is_ascending (a :: l)) = true) in Hx.
    apply andb_true_iff in Hx as [Hxa Ha]. apply Z.ltb_lt in Hxa.
    split; [|exact Ha]. destruct (IH a Ha) as [Hl _].
    intros y [<-|Hy]; [exact Hxa|]. specialize (Hl y Hy). lia. }
  induction l as [|x l IH]; intros Hl; [reflexivity|].
  destruct (H l x Hl) as [Hlt Hasc]. simpl. rewrite (IH Hasc), andb_true_r.
  apply negb_true_iff, not_true_is_false. intros Hex.
  apply existsb_exists in Hex as (y & Hy & Hxy). apply Z.eqb_eq in Hxy.
  specialize (Hlt y Hy). lia.
Qed.

(** C1, as the code has it: for every non-empty sample sequence with pairwise
    distinct timestamps (a strictly ascending one in particular), the Grid
    Builder returns the consecutive hours from [start], the earliest sample
    timestamp shifted by five hours, up to but excluding midnight of the day
    of [start + 8 days].  They are strictly increasing, without duplicates or
    skipped hours, and there are [192 - hour(start)] of them: 192 only when
    [start] falls on midnight. *)
Theorem grid_builder_hours (samples : list sample) :
  samples <> [] ->
  is_unique (map fst samples) = true ->
  let start := col_min 0 (map fst samples) - 5 in
  exists g,
    grid_builder samples = inr g
    /\ g = hours_from start (Z.to_nat (192 - dt_hour start))
    /\ Z.of_nat (List.length g) = 192 - dt_hour start
    /\ StronglySorted Z.lt g
    /\ NoDup g
    /\ (forall t, In t g <-> start <= t < midnight (dt_date (start + days 8))).
Proof.
  intros Hne Hu start.
  destruct (hourly_forecast_total samples Hne Hu) as [h Hh].
  destruct (hourly_forecast_inv samples h Hh) as (_ & _ & Hs).
  fold start in Hs. pose proof (dt_hour_range start) as Hr.
  exists (grid h). unfold grid_builder. rewrite Hh, grid_hours, Hs.
  split; [reflexivity|]. split; [reflexivity|]. split; [|split; [|split]].
  - rewrite hours_from_length. lia.
  - apply hours_from_sorted.
  - pose proof (hours_from_sorted start (Z.to_nat (192 - dt_hour start))) as Hsort.
    induction Hsort as [|a l _ IH Hf]; constructor; [|exact IH].
    intros Hin. rewrite Forall_forall in Hf. specialize (Hf a Hin). lia.
  - intros t. rewrite hours_from_In, midnight_of_end. lia.
Qed.

Lemma grid_builder_hours_witness :
  exists g, grid_builder forecast_40 = inr g /\ Z.of_nat (List.length g) = 173.
Proof.
  destruct (grid_builder_hours forecast_40) as (g & Hg & _ & Hlen & _).
  - discriminate.
  - vm_compute. reflexivity.
  - exists g. split; [exact Hg|]. rewrite Hlen. vm_compute. reflexivity.
Defined.

(** C1 as stated fails: the forty three-hourly samples from 2024-01-01 00:00
    UTC are non-empty, strictly ascending and span 117 hours, and the grid
    built from them runs from 2023-12-31 19:00 to 2024-01-07 23:00, which
    is 173 hours, not 192. *)
Lemma grid_builder_not_192 :
  forecast_40 <> []
  /\ is_ascending (map fst forecast_40) = true
  /\ col_max 0 (map fst forecast_40) - col_min 0 (map fst forecast_40) = 117
  /\ exists g, grid_builder forecast_40 = inr g
               /\ List.length g = 173%nat
               /\ List.length g <> (8 * 24)%nat
               /\ hd_error g = Some (at_hour 2023 12 31 19)
               /\ last g 0 = at_hour 2024 1 7 23.
Proof.
  split; [discriminate|]. split; [vm_compute; reflexivity|].
  split; [vm_compute; reflexivity|].
  exists (hours_from (at_hour 2023 12 31 19) 173).
  split; [vm_compute; reflexivity|].
  repeat split; try (vm_compute; reflexivity).
  vm_compute. discriminate.
Qed.

(** ** The rows returned *)

Lemma prepare_weather_data_total samples :
  samples <> [] -> is_unique (map fst samples) = true ->
  exists tbl, prepare_weather_data samples = inr tbl.
Proof.
  intros Hne Hu. destruct (hourly_forecast_total samples Hne Hu) as [h Hh].
  unfold prepare_weather_data. rewrite Hh. eauto.
Qed.

(** C2: whenever [prepare_weather_data] returns, it returns 168 rows whose
    timestamps are the consecutive hours of the seven calendar days that
    follow the day of the grid's start: contiguous, strictly ascending, from
    midnight of the next day up to midnight seven days later. *)
Theorem prepare_weather_data_168 (samples : list sample) (tbl : list HourlyRow) :
  prepare_weather_data samples = inr tbl ->
  let start := col_min 0 (map fst samples) - 5 in
  let day1 := dt_date start + 1 in
  List.length tbl = (7 * 24)%nat
  /\ map datetime tbl = hours_from (midnight day1) 168
  /\ StronglySorted Z.lt (map datetime tbl)
  /\ (forall t, In t (map datetime tbl) <-> midnight day1 <= t < midnight (day1 + 7)).
Proof.
  intros H start day1. unfold prepare_weather_data in H.
  destruct (hourly_forecast samples) as [e|h] eqn:Hh; [discriminate|].
  injection H as <-.
  destruct (hourly_forecast_inv samples h Hh) as (_ & _ & Hs). fold start in Hs.
  assert (Hd : map datetime (prepare_hourly h) = hours_from (midnight day1) 168).
  { rewrite prepare_hourly_datetimes, Hs. reflexivity. }
  split; [|split; [exact Hd|split]].
  - apply prepare_hourly_length.
  - rewrite Hd. apply hours_from_sorted.
  - intros t. rewrite Hd, hours_from_In. unfold midnight. lia.
Qed.

Lemma prepare_weather_data_168_witness :
  exists tbl, prepare_weather_data forecast_40 = inr tbl
              /\ List.length tbl = 168%nat
              /\ map datetime tbl = hours_from (at_hour 2024 1 1 0) 168.
Proof.
  destruct (prepare_weather_data forecast_40) as [e|tbl] eqn:E.
  - vm_compute in E. discriminate.
  - exists tbl. destruct (prepare_weather_data_168 forecast_40 tbl E) as (Hl & Hd & _).
    split; [reflexivity|]. split; [exact Hl|].
    rewrite Hd. f_equal.
Defined.

(** ** The Interpolation Engine *)

Lemma interpolation_engine_length df :
  List.length (interpolation_engine df) = List.length df.
Proof.
  rewrite interpolation_engine_eq, (Permutation_length (sort_values_perm _)).
  rewrite <- (length_map fst), concat_map_map.
  rewrite (map_ext _ (fun h => map fst (hourly_data df h))) by (intros; apply fill_hour_fst).
  rewrite <- (concat_map_map fst (hourly_data df)), length_map.
  apply Permutation_length, hours_of_day_perm.
Qed.

(** The fate of one bucket: every row of hour [hour] in the output carries a
    cell of the filled column of that bucket. *)
Lemma interpolation_engine_cell df r :
  In r (interpolation_engine df) ->
  In (snd r)
     (ffill (bfill (interpolate (map snd (hourly_data df (dt_hour (fst r))))))).
Proof.
  intros H. apply interpolation_engine_In in H.
  rewrite <- fill_hour_snd. now apply in_map.
Qed.

(** C4: when each of the 24 hour-of-day buckets of the input grid holds at
    least one known temperature, the Interpolation Engine returns as many rows
    as it was given and every one of them has a known temperature. *)
Theorem interpolation_engine_no_missing (df : frame) :
  (forall hour, 0 <= hour < 24 -> bucket_known df hour = true) ->
  List.length (interpolation_engine df) = List.length df
  /\ forall r, In r (interpolation_engine df) -> snd r <> None.
Proof.
  intros Hb. split; [apply interpolation_engine_length|].
  intros r Hr. apply interpolation_engine_cell in Hr.
  revert Hr. generalize (snd r). apply forallb_known_true, fill_column_known.
  apply Hb, dt_hour_range.
Qed.

Lemma interpolation_engine_no_missing_witness :
  exists h,
    hourly_forecast forecast_40 = inr h
    /\ existsb (fun r => negb (known (snd r))) (forecast_df_full h) = true
    /\ forall r, In r (interpolation_engine (forecast_df_full h)) -> snd r <> None.
Proof.
  exists (hourly_of forecast_40).
  split; [vm_compute; reflexivity|]. split; [vm_compute; reflexivity|].
  apply interpolation_engine_no_missing.
  intros hour Hh.
  assert (Hall : forallb (bucket_known (forecast_df_full (hourly_of forecast_40)))
                         (hours_from 0 24) = true) by (vm_compute; reflexivity).
  rewrite forallb_forall in Hall. apply Hall, hours_from_In. lia.
Defined.

(** C9: on an hourly grid in chronological order that has no missing
    temperature, the Interpolation Engine returns its input: the same rows
    with the same temperatures in the same order.  Running it twice is
    running it once. *)
Theorem interpolation_engine_idempotent (df : frame) :
  StronglySorted Z.lt (map fst df) ->
  forallb known (map snd df) = true ->
  interpolation_engine df = df
  /\ interpolation_engine (interpolation_engine df) = interpolation_engine df.
Proof.
  intros Hs Hk.
  assert (He : interpolation_engine df = df).
  { rewrite interpolation_engine_eq.
    rewrite (map_ext_in _ (hourly_data df)).
    - apply sort_values_restores; [exact Hs|]. symmetry. apply hours_of_day_perm.
    - intros h _. apply fill_hour_known. rewrite forallb_forall in *.
      intros c Hc. apply Hk. apply in_map_iff in Hc as (r & <- & Hr).
      apply hourly_data_In in Hr as [Hr _]. now apply in_map. }
  split; [exact He|]. now rewrite !He.
Qed.

Lemma interpolation_engine_idempotent_witness :
  interpolation_engine gap_free_30 = gap_free_30.
Proof.
  apply (interpolation_engine_idempotent gap_free_30).
  - unfold gap_free_30. rewrite map_map. cbn [fst]. rewrite map_id.
    apply hours_from_sorted.
  - vm_compute. reflexivity.
Defined.

(** ** A bucket without any known value *)

(** C3, as the code has it: when the hourly frame of lines 42-50 exists and
    some hour-of-day bucket of the joined grid holds no known temperature,
    [prepare_weather_data] raises nothing: it returns its 168 rows, and every
    returned row of that hour has a missing temperature. *)
Theorem empty_bucket_stays_missing (samples : list sample) (h : frame) (hour : Z) :
  hourly_forecast samples = inr h ->
  bucket_known (forecast_df_full h) hour = false ->
  exists tbl,
    prepare_weather_data samples = inr tbl
    /\ List.length tbl = 168%nat
    /\ forall r, In r tbl -> Hour r = hour -> temp r = None.
Proof.
  intros Hh Hb. exists (prepare_hourly h).
  assert (Hp : prepare_weather_data samples = inr (prepare_hourly h)).
  { unfold prepare_weather_data. now rewrite Hh. }
  split; [exact Hp|]. split; [apply prepare_hourly_length|].
  intros r Hr <-. rewrite prepare_hourly_rows in Hr. cbv zeta in Hr.
  apply in_map_iff in Hr as (fr & <- & Hfr).
  apply filter_In in Hfr as [Hfr _]. unfold add_calendar in Hfr.
  apply in_map_iff in Hfr as (p & <- & Hp'). cbn [joined_row temp Hour f_temp f_Hour] in *.
  apply interpolation_engine_cell in Hp'.
  unfold bucket_known in Hb. rewrite (fill_column_missing _ Hb) in Hp'.
  revert Hp'. generalize (snd p). now apply existsb_known_false.
Qed.

Lemma empty_bucket_stays_missing_witness :
  exists tbl,
    prepare_weather_data forecast_1 = inr tbl
    /\ List.length tbl = 168%nat
    /\ forall r, In r tbl -> Hour r = 0 -> temp r = None.
Proof.
  apply (empty_bucket_stays_missing forecast_1 (hourly_of forecast_1) 0).
  - vm_compute. reflexivity.
  - vm_compute. reflexivity.
Defined.

(** C3 as stated fails: for the forecast of one sample the bucket of hour 0
    of the joined grid has no known temperature, and [prepare_weather_data]
    still returns a table of 168 rows, all seven rows of hour 0 among them
    with a missing temperature. *)
Lemma prepare_weather_data_returns_with_gaps :
  exists h tbl,
    hourly_forecast forecast_1 = inr h
    /\ bucket_known (forecast_df_full h) 0 = false
    /\ prepare_weather_data forecast_1 = inr tbl
    /\ List.length tbl = 168%nat
    /\ map temp (filter (fun r => Hour r =? 0) tbl) = repeat None 7.
Proof.
  exists (hourly_of forecast_1), (prepare_hourly (hourly_of forecast_1)).
  repeat split; vm_compute; reflexivity.
Qed.

(** ** An empty forecast *)

(** C5, as the code has it: on an empty sample sequence nothing is raised by
    the pipeline.  [solar_power_forecast] prints that no forecast is
    available and returns [None], whatever the model, the ceiling, the
    capacity and the latitude are, so that no stage has run; and
    [prepare_weather_data] itself, called on the empty sequence, stops with a
    [KeyError] at its first column access, before any grid exists. *)
Theorem empty_forecast_no_result :
  (forall country gbm max_ghi plant_capacity lat,
      exists msg,
        solar_power_forecast country [] gbm max_ghi plant_capacity lat
        = Some (inr ([msg], None)))
  /\ (forall gbm max_ghi plant_capacity lat,
         solar_power_forecast "USA" [] gbm max_ghi plant_capacity lat
         = Some (inr (["Weather forecast data is not available."%string], None)))
  /\ prepare_weather_data [] = inl (KeyError "datetime")
  /\ grid_builder [] = inl (KeyError "datetime").
Proof.
  split; [|split; [|split]]; try reflexivity.
  intros country gbm max_ghi plant_capacity lat. unfold solar_power_forecast.
  destruct (negb (existsb (String.eqb country) us_names)); eauto.
Qed.

(** C5 as stated fails: for a location in the United States and an empty
    forecast the pipeline returns normally, with the value [None]; no error
    of any kind comes out of it. *)
Lemma empty_forecast_returns_normally :
  solar_power_forecast "USA" [] (fun _ => 0%Q) 1000%Q 100%Q 40%Q
  = Some (inr (["Weather forecast data is not available."%string], None))
  /\ forall e : exn,
       solar_power_forecast "USA" [] (fun _ => 0%Q) 1000%Q 100%Q 40%Q
       <> Some (inl e).
Proof. split; [reflexivity|]. intros e. vm_compute. discriminate. Qed.

(** ** The tilt heuristic *)

(** C6, as the code has it: day 80 gives the latitude and day 1 the latitude
    plus 15; day 200 lies between day 79 and day 263 and gives the latitude
    as well, 40 at latitude 40 and 5 at latitude 5.  The values
    [max(25, 0) = 25] and [max(-10, 0) = 0] are those of the third branch,
    reached from day 264 to day 355, for instance on day 300. *)
Theorem optimal_angle_test_values :
  optimal_angle 40%Q 80 = 40%Q
  /\ optimal_angle 40%Q 1 = 55%Q
  /\ optimal_angle 40%Q 200 = 40%Q
  /\ optimal_angle 5%Q 200 = 5%Q
  /\ optimal_angle 40%Q 300 = 25%Q
  /\ optimal_angle 5%Q 300 = 0%Q.
Proof. repeat split; vm_compute; reflexivity. Qed.

(** C6 as stated fails on day 200: the first branch takes it, and the angle
    is the latitude, neither 25 at latitude 40 nor 0 at latitude 5. *)
Lemma optimal_angle_day_200 :
  optimal_angle 40%Q 200 = 40%Q
  /\ ~ (optimal_angle 40%Q 200 == 25)%Q
  /\ optimal_angle 5%Q 200 = 5%Q
  /\ ~ (optimal_angle 5%Q 200 == 0)%Q.
Proof. repeat split; vm_compute; reflexivity || discriminate. Qed.

Lemma py_max_Qmax a b : (py_max a b == Qmax a b)%Q.
Proof.
  unfold py_max. destruct (Qlt_le_dec a b) as [H|H].
  - symmetry. apply Q.max_r. now apply Qlt_le_weak.
  - symmetry. now apply Q.max_l.
Qed.

(** C7: the tilt rule by season.  From day 79 to day 263 the angle is the
    latitude; before day 79 and from day 356 on it is the latitude plus 15;
    in between it is [max(latitude - 15, 0)]; day 79, which the first two
    ranges share, takes the first and gives the latitude. *)
Theorem optimal_angle_by_season (lat : Q) (day_of_year : Z) :
  (79 <= day_of_year <= 263 -> optimal_angle lat day_of_year = lat)
  /\ ((356 <= day_of_year \/ day_of_year <= 79) -> ~ 79 <= day_of_year <= 263 ->
      optimal_angle lat day_of_year = (lat + 15)%Q)
  /\ (~ 79 <= day_of_year <= 263 -> ~ (356 <= day_of_year \/ day_of_year <= 79) ->
      optimal_angle lat day_of_year = py_max (lat - 15)%Q 0%Q
      /\ (optimal_angle lat day_of_year == Qmax (lat - 15) 0)%Q)
  /\ optimal_angle lat 79 = lat.
Proof.
  unfold optimal_angle. split; [|split; [|split]].
  - intros [H1 H2]. apply Z.leb_le in H1, H2. now rewrite H1, H2.
  - intros Hw Hn.
    destruct ((79 <=? day_of_year) && (day_of_year <=? 263)) eqn:E.
    + apply andb_true_iff in E as [E1 E2]. apply Z.leb_le in E1, E2. lia.
    + replace ((356 <=? day_of_year) || (day_of_year <=? 79)) with true; [reflexivity|].
      symmetry. apply orb_true_iff. rewrite !Z.leb_le. exact Hw.
  - intros Hn Hw.
    destruct ((79 <=? day_of_year) && (day_of_year <=? 263)) eqn:E.
    + apply andb_true_iff in E as [E1 E2]. apply Z.leb_le in E1, E2. lia.
    + replace ((356 <=? day_of_year) || (day_of_year <=? 79)) with false.
      * split; [reflexivity|apply py_max_Qmax].
      * symmetry. apply orb_false_iff. rewrite !Z.leb_gt. lia.
  - reflexivity.
Qed.

Lemma optimal_angle_by_season_witness :
  optimal_angle 40%Q 150 = 40%Q
  /\ optimal_angle 40%Q 360 = (40 + 15)%Q
  /\ optimal_angle 40%Q 300 = py_max (40 - 15)%Q 0%Q
  /\ optimal_angle 40%Q 79 = 40%Q.
Proof.
  split; [|split; [|split]].
  - destruct (optimal_angle_by_season 40%Q 150) as (H & _). apply H. lia.
  - destruct (optimal_angle_by_season 40%Q 360) as (_ & H & _). apply H; lia.
  - destruct (optimal_angle_by_season 40%Q 300) as (_ & _ & H & _). apply H; lia.
  - destruct (optimal_angle_by_season 40%Q 79) as (_ & _ & _ & H). exact H.
Defined.

(** The day of the year is that of the first row. *)
Lemma calculate_optimal_tilt_angle_first_row r tl lat :
  calculate_optimal_tilt_angle (r :: tl) lat
  = inr (optimal_angle lat (tm_yday (datetime (ghi_base (power_base r))))).
Proof. reflexivity. Qed.

(** ** Power *)

Lemma clamp_nonneg x : (0 <= clamp x)%Q.
Proof. unfold clamp. destruct (Qlt_le_dec x 0); [apply Qle_refl|assumption]. Qed.

Lemma clamp_Qmax x : (clamp x == Qmax 0 x)%Q.
Proof.
  unfold clamp. destruct (Qlt_le_dec x 0) as [H|H].
  - symmetry. apply Q.max_l. now apply Qlt_le_weak.
  - symmetry. now apply Q.max_r.
Qed.

Lemma calculate_power_generation_some df capacity max_ghi :
  ~ (max_ghi == 0)%Q ->
  calculate_power_generation df capacity max_ghi
  = Some (map (fun r => mkPowerRow r (clamp (ghi_forecasted r * (capacity / max_ghi))%Q)) df).
Proof.
  intros H. unfold calculate_power_generation.
  destruct (Qeq_bool max_ghi 0) eqn:E; [|reflexivity].
  apply Qeq_bool_eq in E. contradiction.
Qed.

(** C8, as the code has it: for a non-zero ceiling the scaler returns a table
    in which every power is [max(0, irradiance * ratio)] with
    [ratio = capacity / ceiling], hence never negative; and when the ratio is
    not negative, the power is 0 on every row whose forecasted irradiance is
    negative. *)
Theorem power_clamped (df : list GhiRow) (capacity max_ghi : Q) :
  ~ (max_ghi == 0)%Q ->
  exists out,
    calculate_power_generation df capacity max_ghi = Some out
    /\ (forall r, In r out ->
          (0 <= power r)%Q
          /\ (power r == Qmax 0 (ghi_forecasted (power_base r) * (capacity / max_ghi)))%Q)
    /\ ((0 <= capacity / max_ghi)%Q ->
        forall r, In r out ->
          (ghi_forecasted (power_base r) < 0)%Q -> (power r == 0)%Q).
Proof.
  intros Hz. eexists. split; [now apply calculate_power_generation_some|].
  split.
  - intros r Hr. apply in_map_iff in Hr as (g & <- & _). cbn [power power_base].
    split; [apply clamp_nonneg|apply clamp_Qmax].
  - intros Hratio r Hr Hneg. apply in_map_iff in Hr as (g & <- & _).
    cbn [power power_base] in *. rewrite clamp_Qmax. apply Q.max_l.
    apply Qle_trans with (0 * (capacity / max_ghi))%Q.
    + apply Qmult_le_compat_r; [now apply Qlt_le_weak|exact Hratio].
    + rewrite Qmult_0_l. apply Qle_refl.
Qed.

Lemma power_clamped_witness :
  exists out,
    calculate_power_generation ghi_rows_3 100%Q 1000%Q = Some out
    /\ map power out = [0%Q; clamp (95 * (100 / 1000))%Q; clamp (195 * (100 / 1000))%Q].
Proof.
  destruct (power_clamped ghi_rows_3 100%Q 1000%Q) as (out & Hout & _ & _).
  - vm_compute. discriminate.
  - exists out. split; [exact Hout|].
    vm_compute in Hout. injection Hout as <-. vm_compute. reflexivity.
Defined.

(** C8 as stated fails when the ratio is negative: with a capacity of -100
    and a ceiling of 1000 the row whose forecasted irradiance is -5 gets the
    power 1/2, not 0. *)
Lemma power_positive_on_negative_irradiance :
  exists out r,
    calculate_power_generation ghi_rows_3 (-100)%Q 1000%Q = Some out
    /\ In r out
    /\ (ghi_forecasted (power_base r) < 0)%Q
    /\ (power r == 1 # 2)%Q
    /\ ~ (power r == 0)%Q.
Proof.
  eexists. eexists. split; [reflexivity|]. split; [left; reflexivity|].
  split; [vm_compute; reflexivity|]. split; vm_compute; discriminate || reflexivity.
Qed.

(** ** Frames of the two scaler stages *)

(** C10: [predict_ghi] only adds [ghi_forecasted] and
    [calculate_power_generation] only adds [power]: stripped of the new
    column, the returned table is the table received, row for row, in the
    same order, and with as many rows. *)
Theorem scaler_stages_preserve_frame (gbm : Features -> Q) (df : list HourlyRow) (gdf : list GhiRow) (capacity max_ghi : Q) (out : list PowerRow) :
  calculate_power_generation gdf capacity max_ghi = Some out ->
  map ghi_base (predict_ghi gbm df) = df
  /\ List.length (predict_ghi gbm df) = List.length df
  /\ map power_base out = gdf
  /\ List.length out = List.length gdf.
Proof.
  intros H. unfold calculate_power_generation in H.
  destruct (Qeq_bool max_ghi 0); [discriminate|]. injection H as <-.
  unfold predict_ghi. rewrite !map_map, !length_map. cbn [ghi_base power_base].
  now rewrite !map_id.
Qed.

Lemma scaler_stages_preserve_frame_witness :
  exists out,
    calculate_power_generation ghi_rows_3 100%Q 1000%Q = Some out
    /\ map power_base out = ghi_rows_3
    /\ map ghi_base (predict_ghi (fun x => inject_Z (x_Hour x)) (map ghi_base ghi_rows_3))
       = map ghi_base ghi_rows_3.
Proof.
  destruct (calculate_power_generation ghi_rows_3 100%Q 1000%Q) as [out|] eqn:E.
  - exists out. split; [reflexivity|].
    destruct (scaler_stages_preserve_frame (fun x => inject_Z (x_Hour x))
                (map ghi_base ghi_rows_3) ghi_rows_3 100%Q 1000%Q out E)
      as (H1 & _ & H2 & _).
    split; assumption.
  - vm_compute in E. discriminate.
Defined.

(** * Further properties of the code *)

(** ** Filled values stay within the known ones *)

Lemma next_known_In l n v : next_known l = Some (n, v) -> In (Some v) l.
Proof.
  revert n. induction l as [|[w|] l IH]; intros n H; simpl in *; try discriminate.
  - injection H as _ ->. now left.
  - destruct (next_known l) as [[m u]|]; [|discriminate].
    injection H as _ <-. right. now apply (IH m).
Qed.

Lemma on_the_line (lo hi a b : Q) (d m : nat) :
  (lo <= a <= hi)%Q -> (lo <= b <= hi)%Q ->
  (lo <= a + (b - a) * (inject_Z (Z.of_nat (S d)) / inject_Z (Z.of_nat (S d + S m)))
   <= hi)%Q.
Proof.
  intros Ha Hb.
  set (t := (inject_Z (Z.of_nat (S d)) / inject_Z (Z.of_nat (S d + S m)))%Q).
  assert (Ht : (0 <= t <= 1)%Q).
  { assert (H1 : (0 < inject_Z (Z.of_nat (S d)))%Q) by (unfold Qlt, inject_Z; simpl; lia).
    assert (H2 : (inject_Z (Z.of_nat (S d)) <= inject_Z (Z.of_nat (S d + S m)))%Q)
      by (rewrite <- Zle_Qle; lia).
    subst t. split; [apply Qle_shift_div_l|apply Qle_shift_div_r]; lra. }
  split; nra.
Qed.

Lemma interpolate_from_within lo hi prev l :
  cells_within lo hi l ->
  (forall a d, prev = Some (a, d) -> (lo <= a <= hi)%Q) ->
  cells_within lo hi (interpolate_from prev l).
Proof.
  revert prev. induction l as [|[w|] l IH]; intros prev Hl Hp v Hv; simpl in Hv.
  - contradiction.
  - destruct Hv as [[= <-]|Hv]; [apply Hl; now left|].
    revert v Hv. apply IH.
    + intros u Hu. apply Hl. now right.
    + intros a d [= <- _]. apply Hl. now left.
  - assert (Htl : cells_within lo hi l) by (intros u Hu; apply Hl; now right).
    destruct prev as [[a d]|].
    + pose proof (Hp a d eq_refl) as Ha.
      destruct Hv as [Hv|Hv].
      * destruct (next_known l) as [[m b]|] eqn:E.
        -- injection Hv as <-. apply on_the_line; [exact Ha|].
           apply Htl. now apply (next_known_In l m).
        -- now injection Hv as <-.
      * revert v Hv. apply IH; [exact Htl|]. now intros a' d' [= <- _].
    + destruct Hv as [Hv|Hv]; [discriminate|].
      revert v Hv. apply IH; [exact Htl|]. discriminate.
Qed.

Lemma bfill_within lo hi l : cells_within lo hi l -> cells_within lo hi (bfill l).
Proof.
  induction l as [|[w|] l IH]; intros Hl v Hv; simpl in Hv.
  - contradiction.
  - destruct Hv as [[= <-]|Hv]; [apply Hl; now left|].
    apply IH; [|exact Hv]. intros u Hu. apply Hl. now right.
  - assert (Htl : cells_within lo hi l) by (intros u Hu; apply Hl; now right).
    destruct Hv as [Hv|Hv]; [|now apply IH].
    destruct (next_known l) as [[m b]|] eqn:E; [|discriminate].
    injection Hv as <-. apply Htl. now apply (next_known_In l m).
Qed.

Lemma ffill_from_within lo hi prev l :
  cells_within lo hi l -> cells_within lo hi [prev] ->
  cells_within lo hi (ffill_from prev l).
Proof.
  revert prev. induction l as [|[w|] l IH]; intros prev Hl Hp v Hv; simpl in Hv.
  - contradiction.
  - destruct Hv as [[= <-]|Hv]; [apply Hl; now left|].
    revert v Hv. apply IH.
    + intros u Hu. apply Hl. now right.
    + intros u [[= <-]|[]]. apply Hl. now left.
  - destruct Hv as [->|Hv]; [apply Hp; now left|].
    revert v Hv. apply IH; [|exact Hp]. intros u Hu. apply Hl. now right.
Qed.

Lemma fill_column_within lo hi l :
  cells_within lo hi l -> cells_within lo hi (ffill (bfill (interpolate l))).
Proof.
  intros H. apply ffill_from_within; [|intros v [[=]|[]]].
  apply bfill_within, interpolate_from_within; [exact H|discriminate].
Qed.

(** X1: the Interpolation Engine invents no extreme.  If the known
    temperatures of one hour-of-day bucket of the input lie between [lo] and
    [hi], so does every temperature of that hour in the output. *)
Theorem interpolation_engine_within (df : frame) (hour : Z) (lo hi : Q) :
  cells_within lo hi (map snd (hourly_data df hour)) ->
  forall t v, In (t, Some v) (interpolation_engine df) -> dt_hour t = hour ->
              (lo <= v <= hi)%Q.
Proof.
  intros Hb t v Hr <-. apply interpolation_engine_cell in Hr. cbn [fst snd] in Hr.
  now apply (fill_column_within lo hi _ Hb).
Qed.

Lemma interpolation_engine_within_witness :
  cells_within 16 16
    (map snd (hourly_data (forecast_df_full (hourly_of forecast_3)) 22))
  /\ forall t v,
       In (t, Some v) (interpolation_engine (forecast_df_full (hourly_of forecast_3))) ->
       dt_hour t = 22 -> (16 <= v <= 16)%Q.
Proof.
  assert (H : cells_within 16 16
                (map snd (hourly_data (forecast_df_full (hourly_of forecast_3)) 22))).
  { intros v Hv. vm_compute in Hv.
    repeat (destruct Hv as [Hv|Hv];
            [try discriminate; injection Hv as <-; split; discriminate|]).
    contradiction. }
  split; [exact H|]. exact (interpolation_engine_within _ 22 16%Q 16%Q H).
Defined.

(** ** Rows and cells through the stages *)

Lemma loc_In {A} t (df : list (Z * A)) c : loc t df = Some c -> In (t, c) df.
Proof.
  unfold loc. destruct (find _ df) as [[t' c']|] eqn:E; [|discriminate].
  intros [= <-]. apply find_some in E as [Hin Heq]. apply Z.eqb_eq in Heq.
  simpl in Heq. now subst.
Qed.

Lemma loc_NoDup {A} t (df : list (Z * A)) c :
  NoDup (map fst df) -> In (t, c) df -> loc t df = Some c.
Proof.
  unfold loc. induction df as [|[t' c'] df IH]; intros Hnd Hin; [contradiction|].
  inversion Hnd as [|? ? Hnot Hnd']; subst. simpl.
  destruct (Z.eqb_spec t' t) as [->|Hne].
  - destruct Hin as [[= ->]|Hin]; [reflexivity|].
    exfalso. apply Hnot. now apply (in_map fst) in Hin.
  - destruct Hin as [[= -> ->]|Hin]; [contradiction|]. now apply IH.
Qed.

Lemma is_unique_NoDup l : is_unique l = true -> NoDup l.
Proof.
  induction l as [|x l IH]; intros H; [constructor|].
  simpl in H. apply andb_true_iff in H as [Hx Hl]. constructor; [|now apply IH].
  intros Hin. apply negb_true_iff in Hx.
  assert (existsb (Z.eqb x) l = true); [|congruence].
  apply existsb_exists. exists x. split; [exact Hin|apply Z.eqb_refl].
Qed.

Lemma sorted_NoDup l : StronglySorted Z.lt l -> NoDup l.
Proof.
  induction 1 as [|a l _ IH Hf]; constructor; [|exact IH].
  intros Hin. rewrite Forall_forall in Hf. specialize (Hf a Hin). lia.
Qed.

Lemma reindex_In index df t c :
  In (t, c) (reindex index df) ->
  In t index /\ (c = None \/ In (t, c) df).
Proof.
  unfold reindex. intros H. apply in_map_iff in H as (t' & [= -> <-] & Ht).
  split; [exact Ht|]. destruct (loc t df) as [c|] eqn:E; [|now left].
  right. now apply loc_In.
Qed.

Lemma reindex_found index df t c :
  NoDup (map fst df) -> In t index -> In (t, c) df -> In (t, c) (reindex index df).
Proof.
  intros Hnd Ht Hc. unfold reindex. apply in_map_iff. exists t. split; [|exact Ht].
  now rewrite (loc_NoDup t df c Hnd Hc).
Qed.

Lemma to_central_In df t c : In (t, c) (to_central df) <-> In (t + 5, c) df.
Proof.
  unfold to_central. rewrite in_map_iff. split.
  - intros ([t' c'] & [= <- <-] & H). simpl. now replace (t' - 5 + 5) with t' by lia.
  - intros H. exists (t + 5, c). split; [simpl; f_equal; lia|exact H].
Qed.

Lemma to_central_cells df : map snd (to_central df) = map snd df.
Proof. unfold to_central. rewrite map_map. reflexivity. Qed.

Lemma in_column {A B} (l : list (A * B)) c : In c (map snd l) -> exists t, In (t, c) l.
Proof. intros H. apply in_map_iff in H as ([t c'] & <- & H). now exists t. Qed.

Lemma forecast_df_full_In h t c :
  In (t, c) (forecast_df_full h) ->
  In t (grid h) /\ (c = None \/ In (t, c) h).
Proof.
  intros H. split; [now apply (in_map fst) in H|].
  unfold forecast_df_full in H. apply filter_In in H as [H _].
  now apply reindex_In in H.
Qed.

Lemma forecast_df_full_found h t c :
  NoDup (map fst h) -> In (t, c) h ->
  start_date h <= t < midnight (dt_date (start_date h + days 8)) ->
  In (t, c) (forecast_df_full h).
Proof.
  intros Hnd Hc Ht. unfold forecast_df_full. apply filter_In. split.
  - apply reindex_found; [exact Hnd| |exact Hc].
    unfold date_range, end_date. apply hours_from_In.
    rewrite midnight_of_end in Ht. pose proof (dt_hour_range (start_date h)).
    unfold days. lia.
  - apply Z.ltb_lt. unfold end_date. simpl. lia.
Qed.

(** The hourly frame, spelled out. *)
Lemma hourly_forecast_shape samples h :
  hourly_forecast samples = inr h ->
  samples <> [] /\ is_unique (map fst samples) = true
  /\ h = to_central
           (on_temp interpolate
              (reindex (hours_from (col_min 0 (map fst samples))
                          (Z.to_nat (col_max 0 (map fst samples)
                                     - col_min 0 (map fst samples) + 1)))
                       (map (fun item : sample => (fst item, Some (snd item))) samples))).
Proof.
  intros H. destruct samples as [|s0 tl]; [discriminate|].
  set (samples := s0 :: tl) in *. unfold hourly_forecast in H.
  change (forecast_df samples)
    with (@inr exn _ (map (fun item : sample => (fst item, Some (snd item))) samples)) in H.
  cbv beta iota in H. unfold resample_H_interpolate in H.
  assert (Hk : map fst (map (fun item : sample => (fst item, Some (snd item))) samples)
               = map fst samples) by (rewrite map_map; reflexivity).
  rewrite Hk in H. destruct (is_unique (map fst samples)); [|discriminate].
  injection H as <-. repeat split. discriminate.
Qed.

(** A row of the result and the row of the engine's output it comes from. *)
Lemma prepare_hourly_In h r :
  In r (prepare_hourly h) <->
  exists fr,
    In fr (add_calendar (interpolation_engine (forecast_df_full h)))
    /\ midnight (dt_date (start_date h) + 1) <= f_datetime fr
    /\ r = joined_row fr (day_stats (add_calendar (interpolation_engine (forecast_df_full h)))
                                    (key_of fr)).
Proof.
  rewrite prepare_hourly_rows. cbv zeta. rewrite in_map_iff. split.
  - intros (fr & <- & Hfr). apply filter_In in Hfr as [Hin Hge].
    apply Z.leb_le in Hge. exists fr. split; [exact Hin|]. split; [exact Hge|reflexivity].
  - intros (fr & Hin & Hge & ->). exists fr. split; [reflexivity|].
    apply filter_In. split; [exact Hin|]. apply Z.leb_le. exact Hge.
Qed.

Lemma add_calendar_In df fr :
  In fr (add_calendar df) <->
  exists t c, In (t, c) df
              /\ fr = mkFeatureRow t c (dt_month t) (dt_hour t) (dt_day t) (dt_year t).
Proof.
  unfold add_calendar. rewrite in_map_iff. split.
  - intros ([t c] & <- & H). exists t, c. split; [exact H|reflexivity].
  - intros (t & c & H & ->). exists (t, c). split; [reflexivity|exact H].
Qed.

(** The temperature of a returned row is a cell of the engine's output. *)
Lemma prepare_hourly_temp h r :
  In r (prepare_hourly h) ->
  In (datetime r, temp r) (interpolation_engine (forecast_df_full h))
  /\ Hour r = dt_hour (datetime r)
  /\ midnight (dt_date (start_date h) + 1) <= datetime r.
Proof.
  intros H. destruct (proj1 (prepare_hourly_In h r) H) as (fr & Hfr & Hge & ->).
  destruct (proj1 (add_calendar_In _ fr) Hfr) as (t & c & Hin & ->).
  cbn [joined_row datetime temp Hour f_datetime f_temp f_Hour] in *.
  split; [exact Hin|]. split; [reflexivity|exact Hge].
Qed.

Lemma prepare_hourly_has h t c :
  In (t, c) (interpolation_engine (forecast_df_full h)) ->
  midnight (dt_date (start_date h) + 1) <= t ->
  exists r, In r (prepare_hourly h) /\ datetime r = t /\ temp r = c.
Proof.
  intros Hin Hge.
  set (fr := mkFeatureRow t c (dt_month t) (dt_hour t) (dt_day t) (dt_year t)).
  exists (joined_row fr (day_stats (add_calendar (interpolation_engine (forecast_df_full h)))
                                   (key_of fr))).
  split; [|split; reflexivity]. apply (proj2 (prepare_hourly_In h _)). exists fr.
  split; [|split; [exact Hge|reflexivity]].
  apply (proj2 (add_calendar_In _ fr)). exists t, c. split; [exact Hin|reflexivity].
Qed.

Lemma prepare_weather_data_inv samples tbl :
  prepare_weather_data samples = inr tbl ->
  exists h, hourly_forecast samples = inr h /\ tbl = prepare_hourly h.
Proof.
  unfold prepare_weather_data. destruct (hourly_forecast samples) as [e|h]; [discriminate|].
  intros [= <-]. exists h. split; reflexivity.
Qed.

(** ** The range of the temperatures *)

Lemma hourly_forecast_within samples h lo hi :
  hourly_forecast samples = inr h ->
  (forall s, In s samples -> (lo <= snd s <= hi)%Q) ->
  cells_within lo hi (map snd h).
Proof.
  intros Hh Hs. destruct (hourly_forecast_shape samples h Hh) as (_ & _ & ->).
  rewrite to_central_cells, on_temp_snd by apply interpolate_keeps.
  apply interpolate_from_within; [|discriminate].
  intros v Hv. apply in_column in Hv as (t & Hv).
  apply reindex_In in Hv as (_ & [Hv|Hv]); [discriminate|].
  apply in_map_iff in Hv as (s & [= _ <-] & Hin). now apply Hs.
Qed.

Lemma forecast_df_full_within h lo hi hour :
  cells_within lo hi (map snd h) ->
  cells_within lo hi (map snd (hourly_data (forecast_df_full h) hour)).
Proof.
  intros H v Hv. apply in_column in Hv as (t & Hv).
  apply hourly_data_In in Hv as [Hv _].
  apply forecast_df_full_In in Hv as (_ & [Hv|Hv]); [discriminate|].
  apply H. now apply (in_map snd) in Hv.
Qed.

(** X2: no temperature of the result lies outside the range of the
    forecast: if every sample is between [lo] and [hi], so is every known
    temperature [prepare_weather_data] returns. *)
Theorem prepare_weather_data_within (samples : list sample) (tbl : list HourlyRow) (lo hi : Q) :
  prepare_weather_data samples = inr tbl ->
  (forall s, In s samples -> (lo <= snd s <= hi)%Q) ->
  forall r v, In r tbl -> temp r = Some v -> (lo <= v <= hi)%Q.
Proof.
  intros Hp Hs r v Hr Hv.
  destruct (prepare_weather_data_inv samples tbl Hp) as (h & Hh & ->).
  destruct (prepare_hourly_temp h r Hr) as (Hin & _ & _).
  apply interpolation_engine_cell in Hin. cbn [fst snd] in Hin. rewrite Hv in Hin.
  clear Hv. revert v Hin. apply fill_column_within, forecast_df_full_within.
  exact (hourly_forecast_within samples h lo hi Hh Hs).
Qed.

Lemma prepare_weather_data_within_witness :
  prepare_weather_data forecast_40 = inr (prepare_hourly (hourly_of forecast_40))
  /\ forall r v, In r (prepare_hourly (hourly_of forecast_40)) -> temp r = Some v ->
                 (10 <= v <= 20)%Q.
Proof.
  assert (H : prepare_weather_data forecast_40
              = inr (prepare_hourly (hourly_of forecast_40))) by (vm_compute; reflexivity).
  split; [exact H|].
  apply (prepare_weather_data_within forecast_40 _ 10%Q 20%Q H).
  intros s Hs. apply in_map_iff in Hs as (i & <- & _). cbn [snd].
  destruct (Nat.even i); split; discriminate.
Defined.

(** ** Known cells are kept *)

Lemma keeps_known_trans l1 l2 l3 :
  keeps_known l1 l2 -> keeps_known l2 l3 -> keeps_known l1 l3.
Proof.
  unfold keeps_known. intros H12. revert l3.
  induction H12 as [|c1 c2 l1 l2 Hc _ IH]; intros l3 H23; inversion H23; subst; constructor.
  - intros Hk. specialize (Hc Hk). subst c2. auto.
  - now apply IH.
Qed.

Lemma interpolate_from_keeps_cells prev l : keeps_known l (interpolate_from prev l).
Proof.
  revert prev. induction l as [|[v|] l IH]; intros prev; simpl; [constructor| |].
  - constructor; [reflexivity|apply IH].
  - destruct prev as [[a d]|]; (constructor; [discriminate|apply IH]).
Qed.

Lemma bfill_keeps_cells l : keeps_known l (bfill l).
Proof.
  induction l as [|[v|] l IH]; simpl; constructor; try exact IH;
    [reflexivity|discriminate].
Qed.

Lemma ffill_from_keeps_cells prev l : keeps_known l (ffill_from prev l).
Proof.
  revert prev. induction l as [|[v|] l IH]; intros prev; simpl; constructor;
    try apply IH; [reflexivity|discriminate].
Qed.

Lemma combine_keeps (ks : list Z) l l' :
  keeps_known l l' ->
  forall t v, In (t, Some v) (combine ks l) -> In (t, Some v) (combine ks l').
Proof.
  intros H. revert ks. induction H as [|c c' l l' Hc _ IH]; intros ks t v Hin.
  - now destruct ks.
  - destruct ks as [|k ks]; [contradiction|]. simpl in *.
    destruct Hin as [[= -> ->]|Hin]; [left; now rewrite Hc|right; now apply IH].
Qed.

Lemma on_temp_keeps f df t v :
  keeps_known (map snd df) (f (map snd df)) ->
  In (t, Some v) df -> In (t, Some v) (on_temp f df).
Proof.
  intros Hf Hin. unfold on_temp. apply (combine_keeps _ _ _ Hf).
  now rewrite combine_fst_snd.
Qed.

Lemma fill_hour_keeps b t v : In (t, Some v) b -> In (t, Some v) (fill_hour b).
Proof.
  intros H. unfold fill_hour.
  apply on_temp_keeps; [apply ffill_from_keeps_cells|].
  apply on_temp_keeps; [apply bfill_keeps_cells|].
  apply on_temp_keeps; [apply interpolate_from_keeps_cells|exact H].
Qed.

Lemma interpolation_engine_keeps df t v :
  In (t, Some v) df -> In (t, Some v) (interpolation_engine df).
Proof.
  intros H. rewrite interpolation_engine_eq.
  apply (Permutation_in _ (Permutation_sym (sort_values_perm _))).
  apply in_concat. exists (fill_hour (hourly_data df (dt_hour t))). split.
  - apply in_map_iff. exists (dt_hour t). split; [reflexivity|].
    apply hours_from_In. pose proof (dt_hour_range t). lia.
  - apply fill_hour_keeps, hourly_data_In. split; [exact H|reflexivity].
Qed.

(** X3: the Interpolation Engine only fills.  Whatever grid it is given,
    every row that has a temperature comes out with the same timestamp and
    the same temperature. *)
Theorem interpolation_engine_keeps_known (df : frame) :
  forall t v, In (t, Some v) df -> In (t, Some v) (interpolation_engine df).
Proof. exact (interpolation_engine_keeps df). Qed.

Lemma interpolation_engine_keeps_known_witness :
  In (at_hour 2023 12 31 22, Some 16%Q)
     (interpolation_engine (forecast_df_full (hourly_of forecast_3))).
Proof.
  apply (interpolation_engine_keeps_known _ (at_hour 2023 12 31 22) 16%Q).
  vm_compute. do 3 right. left. reflexivity.
Defined.

(** ** The hourly frame has no gap *)

Lemma col_min_In d l : l <> [] -> In (col_min d l) l.
Proof.
  destruct l as [|x tl]; [easy|]. intros _. simpl.
  revert x. induction tl as [|y tl IH]; intros x; simpl; [now left|].
  specialize (IH (Z.min x y)).
  destruct (Z.min_spec x y) as [[_ E]|[_ E]]; rewrite E in *;
    (destruct IH as [H|H]; [|now do 2 right]); [left|right; left]; exact H.
Qed.

Lemma col_min_le d l t : In t l -> col_min d l <= t.
Proof.
  destruct l as [|x tl]; [easy|]. simpl. revert x.
  induction tl as [|y tl IH]; intros x [->|H]; simpl.
  - lia.
  - contradiction.
  - pose proof (fold_min_le tl (Z.min t y)). lia.
  - destruct H as [->|H].
    + pose proof (fold_min_le tl (Z.min x t)). lia.
    + apply IH. now right.
Qed.

Lemma col_max_ge d l t : In t l -> t <= col_max d l.
Proof.
  destruct l as [|x tl]; [easy|]. simpl. revert x.
  induction tl as [|y tl IH]; intros x [->|H]; simpl.
  - lia.
  - contradiction.
  - pose proof (fold_max_ge tl (Z.max t y)). lia.
  - destruct H as [->|H].
    + pose proof (fold_max_ge tl (Z.max x t)). lia.
    + apply IH. now right.
Qed.

Lemma loc_present {A} t (df : list (Z * A)) :
  In t (map fst df) -> exists c, loc t df = Some c.
Proof.
  unfold loc. intros H. apply in_map_iff in H as ([t' c] & <- & H). cbn [fst].
  destruct (find (fun r => fst r =? t') df) as [[t'' c']|] eqn:E.
  - exists c'. reflexivity.
  - apply (find_none _ _ E) in H. simpl in H. now rewrite Z.eqb_refl in H.
Qed.

Lemma interpolate_from_some_known a d l :
  forallb known (interpolate_from (Some (a, d)) l) = true.
Proof.
  revert a d. induction l as [|[v|] l IH]; intros a d; simpl; [reflexivity|apply IH|].
  rewrite IH, andb_true_r. now destruct (next_known l) as [[m b]|].
Qed.

(** The frame of line 50 covers every hour from the first to the last sample
    and has a temperature in every row. *)
Lemma hourly_forecast_gap_free samples h :
  hourly_forecast samples = inr h ->
  map fst h = hours_from (col_min 0 (map fst samples) - 5)
                         (Z.to_nat (col_max 0 (map fst samples)
                                    - col_min 0 (map fst samples) + 1))
  /\ forallb known (map snd h) = true.
Proof.
  intros Hh. destruct (hourly_forecast_shape samples h Hh) as (Hne & Hu & ->).
  set (lo := col_min 0 (map fst samples)). set (hi := col_max 0 (map fst samples)).
  set (df := map (fun item : sample => (fst item, Some (snd item))) samples).
  assert (Hk : map fst df = map fst samples) by (unfold df; rewrite map_map; reflexivity).
  split.
  - rewrite to_central_datetimes, on_temp_fst, reindex_index by apply interpolate_keeps.
    apply hours_from_shift.
  - rewrite to_central_cells, on_temp_snd by apply interpolate_keeps.
    pose proof (col_min_le_max 0 (map fst samples)) as Hle. fold lo hi in Hle.
    replace (Z.to_nat (hi - lo + 1)) with (S (Z.to_nat (hi - lo))) by lia.
    rewrite hours_from_S. unfold reindex at 1. cbn [map snd].
    assert (Hlo : In lo (map fst df)).
    { rewrite Hk. apply col_min_In. now destruct samples. }
    destruct (loc_present lo df Hlo) as [c Hc]. rewrite Hc.
    apply loc_In, in_map_iff in Hc as (s & [= _ <-] & _).
    unfold interpolate. cbn [interpolate_from forallb known].
    apply interpolate_from_some_known.
Qed.

(** X4: the up-sampling of line 46 leaves no gap.  For every forecast it
    accepts, the hourly frame of line 50 has one row for each hour from the
    earliest to the latest sample (shifted by five hours), in order, and
    every one of these rows has a temperature. *)
Theorem hourly_forecast_contiguous (samples : list sample) (h : frame) :
  hourly_forecast samples = inr h ->
  let first := col_min 0 (map fst samples) - 5 in
  let last := col_max 0 (map fst samples) - 5 in
  map fst h = hours_from first (Z.to_nat (last - first + 1))
  /\ (forall t, In t (map fst h) <-> first <= t <= last)
  /\ (forall r, In r h -> snd r <> None).
Proof.
  intros Hh first last.
  destruct (hourly_forecast_gap_free samples h Hh) as [Hk Hc].
  pose proof (col_min_le_max 0 (map fst samples)) as Hle.
  replace (last - first + 1)
    with (col_max 0 (map fst samples) - col_min 0 (map fst samples) + 1)
    by (unfold first, last; lia).
  split; [exact Hk|]. split.
  - intros t. rewrite Hk, hours_from_In. unfold first, last. lia.
  - intros r Hr. apply (proj1 (forallb_known_true _) Hc). now apply in_map.
Qed.

Lemma hourly_forecast_contiguous_witness :
  map fst (hourly_of forecast_40) = hours_from (at_hour 2023 12 31 19) 118.
Proof.
  destruct (hourly_forecast_contiguous forecast_40 (hourly_of forecast_40)) as (H & _).
  - vm_compute. reflexivity.
  - rewrite H. vm_compute. reflexivity.
Defined.

(** ** A forecast of a day or more fills every row *)

Lemma hour_of_day_reached s hour :
  0 <= hour < 24 ->
  let t := s + (hour - s) mod 24 in
  s <= t < s + 24 /\ dt_hour t = hour.
Proof.
  intros Hh t. pose proof (Z.mod_pos_bound (hour - s) 24 ltac:(lia)) as Hm.
  split; [unfold t; lia|]. unfold t, dt_hour.
  rewrite Z.add_mod_idemp_r by lia. replace (s + (hour - s)) with hour by lia.
  apply Z.mod_small. exact Hh.
Qed.

Lemma full_day_buckets_known samples h :
  hourly_forecast samples = inr h ->
  23 <= col_max 0 (map fst samples) - col_min 0 (map fst samples) ->
  forall hour, 0 <= hour < 24 -> bucket_known (forecast_df_full h) hour = true.
Proof.
  intros Hh Hspan hour Hhour.
  destruct (hourly_forecast_gap_free samples h Hh) as [Hk Hc].
  destruct (hourly_forecast_inv samples h Hh) as (_ & _ & Hs).
  set (s := start_date h) in *. rewrite <- Hs in Hk.
  destruct (hour_of_day_reached s hour Hhour) as [Ht Hd].
  set (t := s + (hour - s) mod 24) in *.
  assert (Hin : In t (map fst h)) by (rewrite Hk; apply hours_from_In; lia).
  apply in_map_iff in Hin as ([t' c] & Ht' & Hin). simpl in Ht'. subst t'.
  assert (Hknown : known c = true).
  { rewrite forallb_forall in Hc. apply Hc. now apply (in_map snd) in Hin. }
  unfold bucket_known. apply existsb_exists. exists c. split; [|exact Hknown].
  apply (in_map snd (hourly_data (forecast_df_full h) hour) (t, c)).
  apply hourly_data_In. split; [|exact Hd].
  apply forecast_df_full_found; [|exact Hin|].
  - rewrite Hk. apply sorted_NoDup, hours_from_sorted.
  - fold s. rewrite midnight_of_end. pose proof (dt_hour_range s). lia.
Qed.

(** X5: when the forecast spans 23 hours or more, so that its hourly frame
    has a row for each of the 24 hours of the day, every row
    [prepare_weather_data] returns has a temperature. *)
Theorem prepare_weather_data_no_missing (samples : list sample) (tbl : list HourlyRow) :
  prepare_weather_data samples = inr tbl ->
  23 <= col_max 0 (map fst samples) - col_min 0 (map fst samples) ->
  forall r, In r tbl -> temp r <> None.
Proof.
  intros Hp Hspan r Hr.
  destruct (prepare_weather_data_inv samples tbl Hp) as (h & Hh & ->).
  destruct (prepare_hourly_temp h r Hr) as (Hin & _ & _).
  apply interpolation_engine_cell in Hin. cbn [fst snd] in Hin.
  revert Hin. generalize (temp r). apply forallb_known_true, fill_column_known.
  apply (full_day_buckets_known samples h Hh Hspan), dt_hour_range.
Qed.

Lemma prepare_weather_data_no_missing_witness :
  prepare_weather_data forecast_40 = inr (prepare_hourly (hourly_of forecast_40))
  /\ col_max 0 (map fst forecast_40) - col_min 0 (map fst forecast_40) = 117
  /\ forall r, In r (prepare_hourly (hourly_of forecast_40)) -> temp r <> None.
Proof.
  assert (H : prepare_weather_data forecast_40
              = inr (prepare_hourly (hourly_of forecast_40))) by (vm_compute; reflexivity).
  split; [exact H|]. split; [vm_compute; reflexivity|].
  apply (prepare_weather_data_no_missing forecast_40 _ H).
  vm_compute. discriminate.
Defined.

(** ** The samples are reproduced *)

(** X6: a sample that falls into the seven returned days is returned as it
    was given: the row of its hour, five hours earlier on the clock, carries
    exactly the sample's temperature. *)
Theorem prepare_weather_data_reproduces (samples : list sample) (tbl : list HourlyRow) (t : Z) (v : Q) :
  prepare_weather_data samples = inr tbl ->
  In (t, v) samples ->
  let day1 := dt_date (col_min 0 (map fst samples) - 5) + 1 in
  midnight day1 <= t - 5 < midnight (day1 + 7) ->
  exists r, In r tbl /\ datetime r = t - 5 /\ temp r = Some v.
Proof.
  intros Hp Hin day1 Hwin.
  destruct (prepare_weather_data_inv samples tbl Hp) as (h & Hh & ->).
  destruct (hourly_forecast_gap_free samples h Hh) as [Hk _].
  destruct (hourly_forecast_inv samples h Hh) as (_ & _ & Hs).
  destruct (hourly_forecast_shape samples h Hh) as (_ & Hu & Hshape).
  assert (Hkey : In t (map fst samples)) by (now apply (in_map fst) in Hin).
  pose proof (col_min_le 0 _ t Hkey) as Hlo. pose proof (col_max_ge 0 _ t Hkey) as Hhi.
  assert (Hh5 : In (t - 5, Some v) h).
  { rewrite Hshape. apply to_central_In. replace (t - 5 + 5) with t by lia.
    apply on_temp_keeps; [apply interpolate_from_keeps_cells|].
    apply reindex_found.
    - rewrite map_map. cbn [fst]. now apply is_unique_NoDup.
    - apply hours_from_In. lia.
    - apply in_map_iff. exists (t, v). split; [reflexivity|exact Hin]. }
  apply prepare_hourly_has.
  - apply interpolation_engine_keeps, forecast_df_full_found; [|exact Hh5|].
    + rewrite Hk. apply sorted_NoDup, hours_from_sorted.
    + rewrite Hs, midnight_of_end. unfold day1, midnight, dt_date in Hwin.
      unfold dt_hour. pose proof (Z.div_mod (col_min 0 (map fst samples) - 5) 24).
      lia.
  - rewrite Hs. apply Hwin.
Qed.

Lemma prepare_weather_data_reproduces_witness :
  exists r, In r (prepare_hourly (hourly_of forecast_40))
            /\ datetime r = at_hour 2024 1 1 4 /\ temp r = Some 20%Q.
Proof.
  apply (prepare_weather_data_reproduces forecast_40 _ (at_hour 2024 1 1 9) 20%Q).
  - vm_compute. reflexivity.
  - vm_compute. do 3 right. left. reflexivity.
  - vm_compute. split; discriminate || reflexivity.
Defined.

(** ** The daily aggregates *)









(** The aggregate a returned row carries is that of the rows of its day. *)
Lemma prepare_hourly_stats h r :
  In r (prepare_hourly h) ->
  let df := add_calendar (interpolation_engine (forecast_df_full h)) in
  let k := (dt_year (datetime r), dt_month (datetime r), dt_day (datetime r)) in
  let temps := map f_temp (filter (fun fr => ymd_eqb (key_of fr) k) df) in
  In (temp r) temps
  /\ max_temp r = agg_max temps /\ min_temp r = agg_min temps
  /\ avg_temp r = agg_mean temps
  /\ temp_diff r = cell_sub (agg_max temps) (agg_min temps).
Proof.
  intros Hr df k temps.
  destruct (proj1 (prepare_hourly_In h r) Hr) as (fr & Hfr & _ & ->).
  destruct (proj1 (add_calendar_In _ fr) Hfr) as (t & c & Hin & ->).
  split; [|repeat split].
  apply (in_map f_temp _ (mkFeatureRow t c (dt_month t) (dt_hour t) (dt_day t) (dt_year t))).
  apply filter_In. split; [exact Hfr|]. apply ymd_eqb_refl.
Qed.



(** X8: the aggregates are broadcast by calendar day: two returned rows of
    the same day carry the same [max_temp], [min_temp], [avg_temp] and
    [temp_diff]. *)
Theorem daily_stats_shared (samples : list sample) (tbl : list HourlyRow) :
  prepare_weather_data samples = inr tbl ->
  forall r1 r2, In r1 tbl -> In r2 tbl ->
  dt_date (datetime r1) = dt_date (datetime r2) ->
  max_temp r1 = max_temp r2 /\ min_temp r1 = min_temp r2
  /\ avg_temp r1 = avg_temp r2 /\ temp_diff r1 = temp_diff r2.
Proof.
  intros Hp r1 r2 H1 H2 Hday.
  destruct (prepare_weather_data_inv samples tbl Hp) as (h & _ & ->).
  destruct (prepare_hourly_stats h r1 H1) as (_ & Hmx1 & Hmn1 & Hav1 & Hd1).
  destruct (prepare_hourly_stats h r2 H2) as (_ & Hmx2 & Hmn2 & Hav2 & Hd2).
  unfold dt_year, dt_month, dt_day in *. rewrite Hday in *.
  rewrite Hmx1, Hmn1, Hav1, Hd1, Hmx2, Hmn2, Hav2, Hd2. repeat split.
Qed.

Lemma daily_stats_shared_witness :
  prepare_weather_data forecast_40 = inr (prepare_hourly (hourly_of forecast_40))
  /\ forall r1 r2, In r1 (prepare_hourly (hourly_of forecast_40)) ->
                   In r2 (prepare_hourly (hourly_of forecast_40)) ->
       dt_date (datetime r1) = dt_date (datetime r2) ->
       max_temp r1 = max_temp r2 /\ min_temp r1 = min_temp r2
       /\ avg_temp r1 = avg_temp r2 /\ temp_diff r1 = temp_diff r2.
Proof.
  assert (H : prepare_weather_data forecast_40
              = inr (prepare_hourly (hourly_of forecast_40))) by (vm_compute; reflexivity).
  split; [exact H|]. exact (daily_stats_shared forecast_40 _ H).
Defined.

(** ** A bucket with a single known value *)

Lemma next_known_missing l : dropna l = [] -> next_known l = None.
Proof.
  induction l as [|[w|] l IH]; simpl; intros H; [reflexivity|discriminate|].
  now rewrite IH.
Qed.

Lemma interpolate_from_after_last a d l :
  dropna l = [] -> interpolate_from (Some (a, d)) l = repeat (Some a) (List.length l).
Proof.
  revert d. induction l as [|[w|] l IH]; intros d H; simpl in *;
    [reflexivity|discriminate|].
  now rewrite (next_known_missing l H), IH.
Qed.

Lemma bfill_head l :
  l <> [] -> exists tl, bfill l = option_map snd (next_known l) :: tl.
Proof.
  destruct l as [|[w|] l]; [easy| |]; intros _; simpl.
  - now eexists.
  - eexists. f_equal. now destruct (next_known l) as [[n v]|].
Qed.

Lemma repeat_known v n : forallb known (repeat (Some v) n) = true.
Proof. induction n; simpl; auto. Qed.

(** With one known cell [v], backward fill after interpolation already gives
    [v] everywhere. *)
Lemma bfill_interpolate_single l v :
  dropna l = [v] ->
  forall prev, prev = None ->
  bfill (interpolate_from prev l) = repeat (Some v) (List.length l).
Proof.
  induction l as [|[w|] l IH]; intros H prev ->; [discriminate| |].
  - simpl in *. injection H as -> H. rewrite (interpolate_from_after_last v 0 l H).
    f_equal. apply bfill_known, repeat_known.
  - simpl in H. specialize (IH H None eq_refl).
    cbn [interpolate_from bfill List.length repeat].
    assert (Hne : interpolate_from None l <> []).
    { intros E. apply (f_equal (@List.length _)) in E.
      rewrite interpolate_from_length in E. destruct l; [discriminate H|discriminate E]. }
    destruct (bfill_head _ Hne) as [tl Htl]. rewrite IH in Htl. rewrite IH.
    destruct (List.length l) as [|n] eqn:El.
    + apply length_zero_iff_nil in El. subst l. discriminate H.
    + cbn [repeat] in Htl. injection Htl as Hhd _. now rewrite <- Hhd.
Qed.

Lemma fill_column_single l v :
  dropna l = [v] ->
  ffill (bfill (interpolate l)) = repeat (Some v) (List.length l).
Proof.
  intros H. unfold interpolate, ffill.
  rewrite (bfill_interpolate_single l v H None eq_refl).
  apply ffill_from_known, repeat_known.
Qed.

(** X9: a bucket with exactly one known temperature is filled from it:
    every output row of that hour of the day carries that temperature. *)
Theorem interpolation_engine_single_anchor (df : frame) (hour : Z) (v : Q) :
  dropna (map snd (hourly_data df hour)) = [v] ->
  forall r, In r (interpolation_engine df) -> dt_hour (fst r) = hour -> snd r = Some v.
Proof.
  intros Hb r Hr <-. apply interpolation_engine_cell in Hr.
  rewrite (fill_column_single _ v Hb) in Hr. now apply repeat_spec in Hr.
Qed.

Lemma interpolation_engine_single_anchor_witness :
  dropna (map snd (hourly_data (forecast_df_full (hourly_of forecast_1)) 19)) = [10%Q]
  /\ forall r, In r (interpolation_engine (forecast_df_full (hourly_of forecast_1))) ->
               dt_hour (fst r) = 19 -> snd r = Some 10%Q.
Proof.
  assert (H : dropna (map snd (hourly_data (forecast_df_full (hourly_of forecast_1)) 19))
              = [10%Q]) by (vm_compute; reflexivity).
  split; [exact H|]. exact (interpolation_engine_single_anchor _ 19 10%Q H).
Defined.

(** ** Power and capacity *)





(** ** The tilt angle *)

(** X11: north of the equator the angle is never negative and never more
    than 15 degrees away from the latitude, whatever the day. *)
Theorem optimal_angle_bounds (lat : Q) (day_of_year : Z) :
  (0 <= lat)%Q ->
  (0 <= optimal_angle lat day_of_year)%Q
  /\ (lat - 15 <= optimal_angle lat day_of_year <= lat + 15)%Q.
Proof.
  intros Hlat. unfold optimal_angle.
  destruct ((79 <=? day_of_year) && (day_of_year <=? 263)); [split; [|split]; lra|].
  destruct ((356 <=? day_of_year) || (day_of_year <=? 79)); [split; [|split]; lra|].
  unfold py_max. destruct (Qlt_le_dec (lat - 15) 0); split; try split; lra.
Qed.

Lemma optimal_angle_bounds_witness :
  (0 <= optimal_angle 5%Q 300)%Q
  /\ (5 - 15 <= optimal_angle 5%Q 300 <= 5 + 15)%Q.
Proof. apply (optimal_angle_bounds 5%Q 300). discriminate. Defined.

(** ** The pipeline as a whole *)

(** The region gate.  When the country is none of the three accepted
    names, [solar_power_forecast] says so and returns [None], whatever the
    forecast, the model, the ceiling, the capacity and the latitude are. *)
Theorem solar_power_forecast_us_only (country : string) (weather_forecast_data : list sample) (gbm : Features -> Q) (max_ghi plant_capacity lat : Q) :
  existsb (String.eqb country) us_names = false ->
  solar_power_forecast country weather_forecast_data gbm max_ghi plant_capacity lat
  = Some (inr (["This function currently works with US locations only."%string], None)).
Proof. intros H. unfold solar_power_forecast. now rewrite H. Qed.

Lemma solar_power_forecast_us_only_witness :
  solar_power_forecast "Canada" forecast_40 (fun _ => 0%Q) 1000%Q 100%Q 45%Q
  = Some (inr (["This function currently works with US locations only."%string], None)).
Proof. apply solar_power_forecast_us_only. vm_compute. reflexivity. Defined.

Lemma prepare_hourly_first h :
  exists r tl, prepare_hourly h = r :: tl
               /\ datetime r = midnight (dt_date (start_date h) + 1).
Proof.
  pose proof (prepare_hourly_datetimes h) as H.
  destruct (prepare_hourly h) as [|r tl]; [discriminate H|].
  exists r, tl. split; [reflexivity|].
  rewrite hours_from_S in H. cbn [map] in H. now injection H.
Qed.

(** X12: the stages composed.  For a United States location, a forecast that
    [prepare_weather_data] accepts and a ceiling other than zero,
    [solar_power_forecast] returns the 168 prepared rows, each extended by
    the model's prediction for its features and by the clamped scaled power,
    together with the tilt angle for the day of the year of the first
    returned row, which is the day after the forecast's first local day. *)
Theorem solar_power_forecast_result (country : string) (weather_forecast_data : list sample) (gbm : Features -> Q) (max_ghi plant_capacity lat : Q) (tbl : list HourlyRow) :
  existsb (String.eqb country) us_names = true ->
  prepare_weather_data weather_forecast_data = inr tbl ->
  ~ (max_ghi == 0)%Q ->
  let day1 := dt_date (col_min 0 (map fst weather_forecast_data) - 5) + 1 in
  exists out,
    solar_power_forecast country weather_forecast_data gbm max_ghi plant_capacity lat
    = Some (inr ([], Some (out, optimal_angle lat (tm_yday (midnight day1)))))
    /\ map (fun r => ghi_base (power_base r)) out = tbl
    /\ List.length out = 168%nat
    /\ forall r, In r out ->
         ghi_forecasted (power_base r) = gbm (model_features (ghi_base (power_base r)))
         /\ power r = clamp (ghi_forecasted (power_base r) * (plant_capacity / max_ghi))%Q.
Proof.
  intros Hus Hp Hz day1.
  destruct (prepare_weather_data_inv _ tbl Hp) as (h & Hh & ->).
  destruct (hourly_forecast_inv _ h Hh) as (Hne & _ & Hs).
  destruct (prepare_hourly_first h) as (r0 & tl & Htbl & Hr0).
  unfold solar_power_forecast. rewrite Hus. cbn [negb].
  destruct weather_forecast_data as [|s0 data]; [contradiction|].
  rewrite Hp, calculate_power_generation_some by exact Hz.
  exists (map (fun r => mkPowerRow (mkGhiRow r (gbm (model_features r)))
                                   (clamp (gbm (model_features r)
                                           * (plant_capacity / max_ghi))%Q))
              (prepare_hourly h)).
  split; [|split; [|split]].
  - unfold predict_ghi. rewrite map_map. cbn [ghi_forecasted].
    rewrite Htbl. cbn [map calculate_optimal_tilt_angle power_base ghi_base].
    rewrite Hr0, Hs. reflexivity.
  - rewrite map_map. cbn [power_base ghi_base]. apply map_id.
  - rewrite length_map. apply prepare_hourly_length.
  - intros r Hr. apply in_map_iff in Hr as (x & <- & _). split; reflexivity.
Qed.

Lemma solar_power_forecast_result_witness :
  exists out,
    solar_power_forecast "USA" forecast_40 (fun x => inject_Z (x_Hour x)) 1000%Q 100%Q 40%Q
    = Some (inr ([], Some (out, 55%Q)))
    /\ List.length out = 168%nat.
Proof.
  destruct (solar_power_forecast_result "USA" forecast_40 (fun x => inject_Z (x_Hour x))
              1000%Q 100%Q 40%Q (prepare_hourly (hourly_of forecast_40)))
    as (out & Hout & _ & Hlen & _).
  - vm_compute. reflexivity.
  - vm_compute. reflexivity.
  - vm_compute. discriminate.
  - exists out. split; [|exact Hlen]. rewrite Hout. reflexivity.
Defined.

(** X13: no forecast, no result.  When the forecast request does not answer
    with status 200, or answers with an empty list, the pipeline for a
    United States location prints that no forecast is available and returns
    [None]. *)
Theorem solar_power_forecast_fetch_failed (country : string) (status_code : Z) (body : list sample) (gbm : Features -> Q) (max_ghi plant_capacity lat : Q) :
  existsb (String.eqb country) us_names = true ->
  status_code <> 200 \/ body = [] ->
  solar_power_forecast country (fetch_weather_forecast status_code body)
                       gbm max_ghi plant_capacity lat
  = Some (inr (["Weather forecast data is not available."%string], None)).
Proof.
  intros Hus Hfail. unfold solar_power_forecast. rewrite Hus. cbn [negb].
  replace (fetch_weather_forecast status_code body) with (@nil sample); [reflexivity|].
  unfold fetch_weather_forecast. destruct Hfail as [Hs| ->].
  - apply Z.eqb_neq in Hs. now rewrite Hs.
  - now destruct (status_code =? 200).
Qed.

Lemma solar_power_forecast_fetch_failed_witness :
  solar_power_forecast "USA" (fetch_weather_forecast 401 forecast_40)
                       (fun _ => 0%Q) 1000%Q 100%Q 40%Q
  = Some (inr (["Weather forecast data is not available."%string], None)).
Proof.
  apply solar_power_forecast_fetch_failed; [vm_compute; reflexivity|].
  left. discriminate.
Defined.

(** X14: the ceiling falls back.  When the ceiling request does not answer
    with status 200, the ceiling is 1000 and the scaler completes: every row
    gets the power [max(0, irradiance * capacity / 1000)]. *)
Theorem calculate_power_generation_fallback (df : list GhiRow) (capacity adjusted : Q) (status_code : Z) :
  status_code <> 200 ->
  calculate_max_ghi status_code adjusted = 1000%Q
  /\ exists out,
       calculate_power_generation df capacity (calculate_max_ghi status_code adjusted)
       = Some out
       /\ map power_base out = df
       /\ forall r, In r out ->
            power r = clamp (ghi_forecasted (power_base r) * (capacity / 1000))%Q
            /\ (0 <= power r)%Q.
Proof.
  intros Hs. apply Z.eqb_neq in Hs.
  assert (Hc : calculate_max_ghi status_code adjusted = 1000%Q)
    by (unfold calculate_max_ghi; now rewrite Hs).
  split; [exact Hc|]. rewrite Hc, calculate_power_generation_some by discriminate.
  eexists. split; [reflexivity|]. split.
  - rewrite map_map. cbn [power_base]. apply map_id.
  - intros r Hr. apply in_map_iff in Hr as (g & <- & _). cbn [power power_base].
    split; [reflexivity|apply clamp_nonneg].
Qed.

Lemma calculate_power_generation_fallback_witness :
  exists out,
    calculate_power_generation ghi_rows_3 100%Q (calculate_max_ghi 503 0%Q) = Some out
    /\ map power_base out = ghi_rows_3.
Proof.
  destruct (calculate_power_generation_fallback ghi_rows_3 100%Q 0%Q 503)
    as (_ & out & Hout & Hbase & _).
  - discriminate.
  - exists out. split; [exact Hout|exact Hbase].
Defined.

(** X15: the script cannot take [None].  Outside the United States, on a
    failed forecast request or on an empty forecast, the unpacking of line
    267 raises a [TypeError]: the script ends with an error, not with the
    message alone. *)
Theorem script_type_error (country : string) (status_code : Z) (body : list sample) (gbm : Features -> Q) (max_ghi : Q) :
  existsb (String.eqb country) us_names = false \/ status_code <> 200 \/ body = [] ->
  script country status_code body gbm max_ghi = Some TypeError_unpack.
Proof.
  intros H. unfold script, solar_power_forecast.
  destruct (existsb (String.eqb country) us_names); cbn [negb]; [|reflexivity].
  replace (fetch_weather_forecast status_code body) with (@nil sample); [reflexivity|].
  unfold fetch_weather_forecast. destruct H as [H|[H| ->]]; [discriminate| |].
  - apply Z.eqb_neq in H. now rewrite H.
  - now destruct (status_code =? 200).
Qed.

Lemma script_type_error_witness :
  script "USA" 401 [] (fun _ => 0%Q) 1000%Q = Some TypeError_unpack.
Proof. apply script_type_error. right. left. discriminate. Defined.

(** ** Inside the forecast the result is the hourly frame *)

Lemma rows_unique {A} (l : list (Z * A)) t c c' :
  NoDup (map fst l) -> In (t, c) l -> In (t, c') l -> c = c'.
Proof.
  intros Hnd H1 H2. apply (loc_NoDup t l c Hnd) in H1. apply (loc_NoDup t l c' Hnd) in H2.
  congruence.
Qed.

Lemma hourly_frame_keys_NoDup samples h :
  hourly_forecast samples = inr h -> NoDup (map fst h).
Proof.
  intros Hh. destruct (hourly_forecast_gap_free samples h Hh) as [Hk _].
  rewrite Hk. apply sorted_NoDup, hours_from_sorted.
Qed.

Lemma interpolation_engine_keys_NoDup h :
  NoDup (map fst (interpolation_engine (forecast_df_full h))).
Proof.
  rewrite interpolation_engine_datetimes by apply forecast_df_full_sorted.
  apply sorted_NoDup, forecast_df_full_sorted.
Qed.

Lemma grid_end h t :
  In t (grid h) <-> start_date h <= t < midnight (dt_date (start_date h + days 8)).
Proof.
  rewrite grid_hours, hours_from_In, midnight_of_end.
  pose proof (dt_hour_range (start_date h)). lia.
Qed.


(** X16: up to the last sample the result is the hourly frame.  A returned
    row whose hour is not later than the last sample carries the temperature
    the up-sampled frame of line 50 has at that hour. *)
Theorem prepare_weather_data_inside_forecast (samples : list sample) (h : frame) (tbl : list HourlyRow) :
  hourly_forecast samples = inr h ->
  prepare_weather_data samples = inr tbl ->
  forall r, In r tbl -> datetime r <= col_max 0 (map fst samples) - 5 ->
            In (datetime r, temp r) h /\ temp r <> None.
Proof.
  intros Hh Hp r Hr Hlast.
  destruct (prepare_weather_data_inv samples tbl Hp) as (h' & Hh' & ->).
  assert (h' = h) as -> by congruence. clear Hh'.
  destruct (prepare_hourly_temp h r Hr) as (Hin & _ & Hge).
  destruct (hourly_forecast_gap_free samples h Hh) as [Hk Hc].
  destruct (hourly_forecast_inv samples h Hh) as (_ & _ & Hs).
  assert (Hgrid : In (datetime r) (grid h)).
  { unfold grid. rewrite <- (interpolation_engine_datetimes (forecast_df_full h))
      by apply forecast_df_full_sorted.
    apply (in_map fst) in Hin. exact Hin. }
  apply grid_end in Hgrid.
  assert (Hkey : In (datetime r) (map fst h)).
  { rewrite Hk. apply hours_from_In. rewrite <- Hs. lia. }
  apply in_map_iff in Hkey as ([t c] & Ht & Hrow). simpl in Ht. subst t.
  assert (Hknown : known c = true).
  { rewrite forallb_forall in Hc. apply Hc. apply (in_map snd) in Hrow. exact Hrow. }
  destruct c as [v|]; [|discriminate].
  assert (Hout : In (datetime r, Some v) (interpolation_engine (forecast_df_full h))).
  { apply interpolation_engine_keeps, forecast_df_full_found; [|exact Hrow|exact Hgrid].
    exact (hourly_frame_keys_NoDup samples h Hh). }
  rewrite (rows_unique _ _ _ _ (interpolation_engine_keys_NoDup h) Hin Hout).
  split; [exact Hrow|discriminate].
Qed.

Lemma prepare_weather_data_inside_forecast_witness :
  hourly_forecast forecast_40 = inr (hourly_of forecast_40)
  /\ prepare_weather_data forecast_40 = inr (prepare_hourly (hourly_of forecast_40))
  /\ forall r, In r (prepare_hourly (hourly_of forecast_40)) ->
               datetime r <= at_hour 2024 1 5 16 ->
               In (datetime r, temp r) (hourly_of forecast_40) /\ temp r <> None.
Proof.
  assert (H1 : hourly_forecast forecast_40 = inr (hourly_of forecast_40))
    by (vm_compute; reflexivity).
  assert (H2 : prepare_weather_data forecast_40
               = inr (prepare_hourly (hourly_of forecast_40))) by (vm_compute; reflexivity).
  split; [exact H1|]. split; [exact H2|].
  exact (prepare_weather_data_inside_forecast forecast_40 _ _ H1 H2).
Defined.

(** ** Between two samples the temperatures are on a line *)




Lemma combine_app_same {A B} (k1 k2 : list A) (c1 c2 : list B) :
  List.length k1 = List.length c1 ->
  combine (k1 ++ k2) (c1 ++ c2) = combine k1 c1 ++ combine k2 c2.
Proof.
  revert c1. induction k1 as [|k k1 IH]; intros [|c c1] H; simpl in *; try easy.
  f_equal. apply IH. lia.
Qed.

Lemma loc_absent {A} t (df : list (Z * A)) : ~ In t (map fst df) -> loc t df = None.
Proof.
  intros H. unfold loc. destruct (find _ df) as [[t' c]|] eqn:E; [|reflexivity].
  apply find_some in E as [Hin Heq]. apply Z.eqb_eq in Heq. simpl in Heq. subst t'.
  exfalso. apply H. now apply (in_map fst) in Hin.
Qed.







(** ** After the last sample the last day is repeated *)

Lemma fill_hour_eq b :
  fill_hour b = combine (map fst b) (ffill (bfill (interpolate (map snd b)))).
Proof. now rewrite <- (combine_fst_snd (fill_hour b)), fill_hour_fst, fill_hour_snd. Qed.

Lemma interpolate_from_known_prefix prev c1 v rest :
  forallb known c1 = true ->
  interpolate_from prev (c1 ++ Some v :: rest)
  = c1 ++ Some v :: interpolate_from (Some (v, O)) rest.
Proof.
  revert prev. induction c1 as [|[w|] c1 IH]; intros prev H; simpl in *;
    [reflexivity| |discriminate].
  now rewrite IH.
Qed.

Lemma combine_repeat {A} (l : list (Z * A)) (c : A) :
  combine (map fst l) (repeat c (List.length l)) = map (fun r => (fst r, c)) l.
Proof. induction l as [|r l IH]; simpl; [reflexivity|now rewrite IH]. Qed.

(** A bucket whose known cells come first and end with [v] is completed
    with [v]. *)
Lemma fill_hour_tail (b1 : frame) u v (b2 : frame) :
  forallb known (map snd b1) = true ->
  dropna (map snd b2) = [] ->
  fill_hour ((b1 ++ [(u, Some v)]) ++ b2)
  = (b1 ++ [(u, Some v)]) ++ map (fun r => (fst r, Some v)) b2.
Proof.
  intros H1 H2. rewrite fill_hour_eq, <- app_assoc, !map_app. cbn [map app fst snd].
  unfold interpolate. rewrite (interpolate_from_known_prefix None _ v _ H1).
  rewrite (interpolate_from_after_last v O _ H2), length_map.
  assert (Hall : forallb known (map snd b1 ++ Some v :: repeat (Some v) (List.length b2))
                 = true).
  { rewrite forallb_app, H1. simpl. apply repeat_known. }
  unfold ffill. rewrite (bfill_known _ Hall), (ffill_from_known _ _ Hall).
  rewrite combine_app_same by now rewrite !length_map.
  rewrite combine_fst_snd. cbn [combine]. rewrite combine_repeat.
  now rewrite <- app_assoc.
Qed.

Lemma same_hour_close t u : dt_hour t = dt_hour u -> -24 < t - u < 24 -> t = u.
Proof.
  unfold dt_hour. intros H Hd.
  pose proof (Z.div_mod t 24 ltac:(lia)). pose proof (Z.div_mod u 24 ltac:(lia)). lia.
Qed.

(** Among 24 consecutive hours one has a given hour of the day. *)
Lemma one_per_day a hour :
  0 <= hour < 24 ->
  filter (fun t => dt_hour t =? hour) (hours_from a 24) = [a + (hour - a) mod 24].
Proof.
  intros Hh. destruct (hour_of_day_reached a hour Hh) as [Hu Hd].
  set (u := a + (hour - a) mod 24) in *. set (k := Z.to_nat (u - a)).
  replace 24%nat with (k + S (23 - k))%nat by (unfold k; lia).
  rewrite hours_from_app, hours_from_S. replace (a + Z.of_nat k) with u by (unfold k; lia).
  rewrite filter_app. cbn [filter]. rewrite Hd, Z.eqb_refl.
  rewrite !filter_none; [reflexivity| |];
    intros t Ht; apply hours_from_In in Ht; apply Z.eqb_neq; rewrite <- Hd;
    intros E; apply same_hour_close in E; unfold k in *; lia.
Qed.

Lemma filter_reindex (p : Z -> bool) idx h :
  filter (fun r => p (fst r)) (reindex idx h) = reindex (filter p idx) h.
Proof.
  unfold reindex. induction idx as [|t idx IH]; simpl; [reflexivity|].
  destruct (p t); simpl; now rewrite IH.
Qed.

Lemma forecast_df_full_eq h : forecast_df_full h = reindex (grid h) h.
Proof.
  unfold grid, forecast_df_full.
  rewrite (filter_reindex (fun t => t <? midnight (dt_date (end_date h)))).
  now rewrite reindex_index.
Qed.

Lemma hourly_data_reindex idx h hour :
  hourly_data (reindex idx h) hour
  = reindex (filter (fun t => dt_hour t =? hour) idx) h.
Proof.
  unfold hourly_data, reindex. induction idx as [|t idx IH]; simpl; [reflexivity|].
  destruct (dt_hour t =? hour); simpl; now rewrite IH.
Qed.

Lemma reindex_app idx1 idx2 h : reindex (idx1 ++ idx2) h = reindex idx1 h ++ reindex idx2 h.
Proof. unfold reindex. apply map_app. Qed.

(** Every hour from the first to the last sample has a temperature in the
    hourly frame. *)
Lemma hourly_cell samples h t :
  hourly_forecast samples = inr h ->
  start_date h <= t <= col_max 0 (map fst samples) - 5 ->
  exists v, In (t, Some v) h.
Proof.
  intros Hh Ht. destruct (hourly_forecast_gap_free samples h Hh) as [Hk Hc].
  destruct (hourly_forecast_inv samples h Hh) as (_ & _ & Hs).
  assert (Hkey : In t (map fst h)) by (rewrite Hk; apply hours_from_In; lia).
  apply in_map_iff in Hkey as ([t' c] & Ht' & Hrow). simpl in Ht'. subst t'.
  rewrite forallb_forall in Hc. specialize (Hc c (in_map snd _ _ Hrow)).
  destruct c as [v|]; [now exists v|discriminate].
Qed.

Lemma reindex_missing idx h :
  (forall t, In t idx -> ~ In t (map fst h)) -> dropna (map snd (reindex idx h)) = [].
Proof.
  intros H. unfold reindex. rewrite map_map. cbn [snd].
  induction idx as [|t idx IH]; [reflexivity|]. cbn [map].
  rewrite (loc_absent t h (H t (or_introl eq_refl))). cbn [dropna].
  apply IH. intros u Hu. apply H. now right.
Qed.

Lemma reindex_known samples h idx :
  hourly_forecast samples = inr h ->
  (forall t, In t idx -> start_date h <= t <= col_max 0 (map fst samples) - 5) ->
  forallb known (map snd (reindex idx h)) = true.
Proof.
  intros Hh H. apply forallb_forall. intros c Hc. apply in_column in Hc as (t & Hc).
  apply in_map_iff in Hc as (t' & [= -> <-] & Ht).
  destruct (hourly_cell samples h t Hh (H t Ht)) as [v Hv].
  now rewrite (loc_NoDup t h _ (hourly_frame_keys_NoDup samples h Hh) Hv).
Qed.

(** The bucket of an hour of the day in the joined grid: the known rows up
    to the last sample, ending with the row of the last 24 forecast hours,
    then the rows after the last sample, all missing. *)
Lemma bucket_shape samples h hour :
  hourly_forecast samples = inr h ->
  23 <= col_max 0 (map fst samples) - col_min 0 (map fst samples) ->
  0 <= hour < 24 ->
  let last := col_max 0 (map fst samples) - 5 in
  (exists t, In t (grid h) /\ last < t) ->
  exists b1 u v b2,
    hourly_data (forecast_df_full h) hour = (b1 ++ [(u, Some v)]) ++ b2
    /\ forallb known (map snd b1) = true
    /\ dropna (map snd b2) = []
    /\ (forall r, In r b1 -> fst r <= last)
    /\ last - 24 < u <= last /\ dt_hour u = hour /\ In (u, Some v) h.
Proof.
  intros Hh Hspan Hhour last (t0 & Ht0 & Hlate).
  destruct (hourly_forecast_gap_free samples h Hh) as [Hk _].
  destruct (hourly_forecast_inv samples h Hh) as (_ & _ & Hs).
  set (s := start_date h) in *. pose proof (dt_hour_range s) as Hr.
  assert (Hsl : s + 23 <= last) by (unfold last; lia).
  set (ng := Z.to_nat (192 - dt_hour s)).
  set (na := Z.to_nat (last - 23 - s)).
  set (nc := (ng - na - 24)%nat).
  destruct (hour_of_day_reached (last - 23) hour Hhour) as [Hu Hd].
  set (u := last - 23 + (hour - (last - 23)) mod 24) in *.
  destruct (hourly_cell samples h u Hh) as [v Hv]; [fold s; fold last; lia|].
  destruct (Z_le_gt_dec (s + Z.of_nat ng) last) as [Hshort|Hlong].
  - exfalso. rewrite grid_hours in Ht0. apply hours_from_In in Ht0. fold s ng in Ht0. lia.
  - assert (Hgrid : grid h = hours_from s na ++ hours_from (last - 23) 24
                             ++ hours_from (last + 1) nc).
    { rewrite grid_hours. fold s ng.
      assert (Hng : ng = (na + (24 + nc))%nat) by (unfold na, nc; lia).
      rewrite Hng, !hours_from_app.
      replace (s + Z.of_nat na) with (last - 23) by (unfold na; lia).
      replace (last - 23 + Z.of_nat 24) with (last + 1) by lia. reflexivity. }
    rewrite forecast_df_full_eq, Hgrid, hourly_data_reindex, !filter_app,
      (one_per_day _ hour Hhour), !reindex_app.
    fold u. unfold reindex at 2. cbn [map].
    rewrite (loc_NoDup u h _ (hourly_frame_keys_NoDup samples h Hh) Hv).
    eexists. exists u, v. eexists. split; [rewrite app_assoc; reflexivity|].
    split; [|split; [|split; [|split; [lia|split; [exact Hd|exact Hv]]]]].
    + apply (reindex_known samples h _ Hh). intros t Ht.
      apply filter_In in Ht as [Ht _]. apply hours_from_In in Ht.
      fold s last. unfold na in Ht. lia.
    + apply reindex_missing. intros t Ht Hin.
      apply filter_In in Ht as [Ht _]. apply hours_from_In in Ht.
      rewrite Hk in Hin. apply hours_from_In in Hin. unfold last in *. lia.
    + intros r Hrow. destruct r as [t c]. apply reindex_In in Hrow as [Ht _].
      apply filter_In in Ht as [Ht _]. apply hours_from_In in Ht.
      cbn [fst]. unfold na in Ht. lia.
Qed.

(** X18: past the last sample the forecast is not extended, the last day is
    repeated.  For a forecast spanning 23 hours or more, every returned row
    later than the last sample carries the temperature the hourly frame has
    at the same hour of the day within the last 24 forecast hours. *)
Theorem prepare_weather_data_after_forecast (samples : list sample) (h : frame) (tbl : list HourlyRow) :
  hourly_forecast samples = inr h ->
  prepare_weather_data samples = inr tbl ->
  23 <= col_max 0 (map fst samples) - col_min 0 (map fst samples) ->
  let last := col_max 0 (map fst samples) - 5 in
  forall r, In r tbl -> last < datetime r ->
  exists u v,
    last - 24 < u <= last /\ dt_hour u = Hour r
    /\ In (u, Some v) h /\ temp r = Some v.
Proof.
  intros Hh Hp Hspan last r Hr Hlate.
  destruct (prepare_weather_data_inv samples tbl Hp) as (h' & Hh' & ->).
  assert (h' = h) as -> by congruence. clear Hh'.
  destruct (prepare_hourly_temp h r Hr) as (Hin & Hhour & _).
  assert (Hgrid : In (datetime r) (grid h)).
  { unfold grid. rewrite <- (interpolation_engine_datetimes (forecast_df_full h))
      by apply forecast_df_full_sorted.
    apply (in_map fst) in Hin. exact Hin. }
  apply interpolation_engine_In in Hin. cbn [fst] in Hin.
  destruct (bucket_shape samples h (dt_hour (datetime r)) Hh Hspan (dt_hour_range _)
              (ex_intro _ (datetime r) (conj Hgrid Hlate)))
    as (b1 & u & v & b2 & Hb & Hk1 & Hk2 & Hle & Hu & Hd & Hv).
  fold last in Hle, Hu.
  rewrite Hb, (fill_hour_tail b1 u v b2 Hk1 Hk2) in Hin.
  exists u, v. split; [exact Hu|]. split; [congruence|]. split; [exact Hv|].
  apply in_app_or in Hin as [Hin|Hin].
  - exfalso. apply in_app_or in Hin as [Hin|[Hin|[]]].
    + apply Hle in Hin. cbn [fst] in Hin. lia.
    + injection Hin as Hin _. lia.
  - apply in_map_iff in Hin as (x & [= _ Hc] & _). symmetry. exact Hc.
Qed.

Lemma prepare_weather_data_after_forecast_witness :
  hourly_forecast forecast_40 = inr (hourly_of forecast_40)
  /\ prepare_weather_data forecast_40 = inr (prepare_hourly (hourly_of forecast_40))
  /\ forall r, In r (prepare_hourly (hourly_of forecast_40)) ->
               at_hour 2024 1 5 16 < datetime r ->
       exists u v,
         at_hour 2024 1 5 16 - 24 < u <= at_hour 2024 1 5 16 /\ dt_hour u = Hour r
         /\ In (u, Some v) (hourly_of forecast_40) /\ temp r = Some v.
Proof.
  assert (H1 : hourly_forecast forecast_40 = inr (hourly_of forecast_40))
    by (vm_compute; reflexivity).
  assert (H2 : prepare_weather_data forecast_40
               = inr (prepare_hourly (hourly_of forecast_40))) by (vm_compute; reflexivity).
  split; [exact H1|]. split; [exact H2|].
  apply (prepare_weather_data_after_forecast forecast_40 _ _ H1 H2).
  vm_compute. discriminate.
Defined.

(** ** The country of an address *)

Lemma split_on_nonempty sep s : split_on sep s <> [].
Proof.
  destruct s as [|c tl]; simpl; [discriminate|].
  destruct (c =? sep); [discriminate|]. destruct (split_on sep tl); discriminate.
Qed.

Lemma last_cons_nonempty {A} (x : A) l d : l <> [] -> last (x :: l) d = last l d.
Proof. destruct l; [contradiction|reflexivity]. Qed.

Lemma last_field_no_sep sep s : ~ In sep (last (split_on sep s) []).
Proof.
  induction s as [|c tl IH]; simpl; [tauto|].
  destruct (Z.eqb_spec c sep) as [->|Hne].
  - now rewrite last_cons_nonempty by apply split_on_nonempty.
  - destruct (split_on sep tl) as [|f fs] eqn:E; [simpl; intuition|].
    destruct fs as [|g fs]; simpl in *; [intuition|exact IH].
Qed.

Lemma split_on_no_sep sep s : ~ In sep s -> split_on sep s = [s].
Proof.
  induction s as [|c tl IH]; intros H; simpl; [reflexivity|].
  destruct (Z.eqb_spec c sep) as [->|Hne]; [exfalso; apply H; now left|].
  rewrite IH; [reflexivity|]. intros Hin. apply H. now right.
Qed.

Lemma split_on_two sep pre x :
  exists f g fs, split_on sep (pre ++ sep :: x) = f :: g :: fs.
Proof.
  induction pre as [|c pre IH]; simpl.
  - rewrite Z.eqb_refl. destruct (split_on sep x) as [|g fs] eqn:E.
    + now apply split_on_nonempty in E.
    + now exists [], g, fs.
  - destruct IH as (f & g & fs & ->). destruct (c =? sep).
    + now exists [], f, (g :: fs).
    + now exists (c :: f), g, fs.
Qed.

(** The last field is what follows the last separator. *)
Lemma last_field_after sep pre x :
  ~ In sep x -> last (split_on sep (pre ++ sep :: x)) [] = x.
Proof.
  intros Hx. induction pre as [|c pre IH]; simpl.
  - rewrite Z.eqb_refl, (split_on_no_sep sep x Hx). reflexivity.
  - destruct (split_on_two sep pre x) as (f & g & fs & E). rewrite E in *.
    destruct (c =? sep); exact IH.
Qed.

Lemma lstrip_suffix s : exists pre, s = pre ++ lstrip s.
Proof.
  induction s as [|c tl [pre IH]]; simpl; [now exists []|].
  destruct (is_space c); [|now exists []].
  exists (c :: pre). simpl. now rewrite <- IH.
Qed.

Lemma lstrip_head s : lstrip s = [] \/ is_space (hd 0 (lstrip s)) = false.
Proof.
  induction s as [|c tl IH]; simpl; [now left|].
  destruct (is_space c) eqn:E; [exact IH|right; exact E].
Qed.

Lemma last_app_nonempty {A} (l1 l2 : list A) d : l2 <> [] -> last (l1 ++ l2) d = last l2 d.
Proof.
  intros H. induction l1 as [|x l1 IH]; [reflexivity|].
  simpl. rewrite IH. destruct (l1 ++ l2) eqn:E; [|reflexivity].
  apply app_eq_nil in E as [_ ->]. contradiction.
Qed.

Lemma hd_rev_last {A} (l : list A) d : hd d (rev l) = last l d.
Proof.
  induction l as [|x l IH]; [reflexivity|]. simpl.
  destruct l as [|y l]; [reflexivity|]. rewrite <- IH.
  simpl. destruct (rev l ++ [y]) eqn:E; [|reflexivity].
  now apply app_eq_nil in E as [_ E].
Qed.

Lemma strip_ends s :
  strip s = []
  \/ (is_space (hd 0 (strip s)) = false /\ is_space (last (strip s) 0) = false).
Proof.
  unfold strip. destruct (lstrip_head (rstrip s)) as [E|Hhd]; [now left|].
  destruct (lstrip (rstrip s)) as [|c tl] eqn:E; [now left|]. right. split; [exact Hhd|].
  destruct (lstrip_suffix (rstrip s)) as [pre Hpre]. rewrite E in Hpre.
  rewrite <- (last_app_nonempty pre (c :: tl)) by discriminate. rewrite <- Hpre.
  unfold rstrip. rewrite <- hd_rev_last, rev_involutive.
  destruct (lstrip_head (rev s)) as [E'|H]; [|exact H].
  unfold rstrip in Hpre. rewrite E' in Hpre. now destruct pre.
Qed.

Lemma strip_incl s c : In c (strip s) -> In c s.
Proof.
  unfold strip, rstrip. intros H.
  destruct (lstrip_suffix (rev (lstrip (rev s)))) as [pre Hpre].
  assert (H1 : In c (rev (lstrip (rev s)))) by (rewrite Hpre; apply in_or_app; now right).
  apply in_rev in H1. destruct (lstrip_suffix (rev s)) as [pre' Hpre'].
  apply in_rev. rewrite Hpre'. apply in_or_app. now right.
Qed.

(** X19: the country name [fetch_location_details] extracts holds no comma
    and neither begins nor ends with white space; it is the stripped text
    after the last comma of the address, and the stripped address when the
    address has no comma. *)
Theorem fetch_location_details_country (address : list Z) :
  ~ In comma (fetch_location_details address)
  /\ (fetch_location_details address = []
      \/ (is_space (hd 0 (fetch_location_details address)) = false
          /\ is_space (last (fetch_location_details address) 0) = false))
  /\ (forall pre x, address = pre ++ comma :: x -> ~ In comma x ->
                    fetch_location_details address = strip x)
  /\ (~ In comma address -> fetch_location_details address = strip address).
Proof.
  unfold fetch_location_details. split; [|split; [|split]].
  - intros H. apply strip_incl in H. now apply last_field_no_sep in H.
  - apply strip_ends.
  - intros pre x -> Hx. now rewrite last_field_after.
  - intros H. now rewrite split_on_no_sep.
Qed.

Lemma fetch_location_details_country_witness :
  fetch_location_details (code_points "New York, 10007, United States ")
  = code_points "United States".
Proof.
  destruct (fetch_location_details_country
              (code_points "New York, 10007, United States ")) as (_ & _ & H & _).
  rewrite (H (code_points "New York, 10007") (code_points " United States ")).
  - vm_compute. reflexivity.
  - vm_compute. reflexivity.
  - vm_compute. intuition discriminate.
Defined.

(** ** The engine on its own output *)

Lemma fill_hour_missing b : existsb known (map snd b) = false -> fill_hour b = b.
Proof.
  intros H. rewrite fill_hour_eq, (fill_column_missing _ H). apply combine_fst_snd.
Qed.

(** A bucket of the engine's output is either without gaps or without any
    known cell. *)
Lemma interpolation_engine_bucket df hour :
  forallb known (map snd (hourly_data (interpolation_engine df) hour)) = true
  \/ existsb known (map snd (hourly_data (interpolation_engine df) hour)) = false.
Proof.
  destruct (existsb known (map snd (hourly_data df hour))) eqn:E.
  - left. apply forallb_forall. intros c Hc. apply in_column in Hc as (t & Hc).
    apply hourly_data_In in Hc as [Hc Ht]. cbn [fst] in Ht.
    apply interpolation_engine_cell in Hc. cbn [fst snd] in Hc. rewrite Ht in Hc.
    pose proof (fill_column_known _ E) as Hall. rewrite forallb_forall in Hall.
    exact (Hall c Hc).
  - right. apply existsb_known_false. intros c Hc. apply in_column in Hc as (t & Hc).
    apply hourly_data_In in Hc as [Hc Ht]. cbn [fst] in Ht.
    apply interpolation_engine_cell in Hc. cbn [fst snd] in Hc. rewrite Ht in Hc.
    rewrite (fill_column_missing _ E) in Hc.
    exact (proj1 (existsb_known_false _) E c Hc).
Qed.

(** X20: on a grid in chronological order the Interpolation Engine keeps the
    [datetime] column, row for row, and a second run changes nothing, whether
    or not the grid had gaps and whether or not they could be filled. *)
Theorem interpolation_engine_twice (df : frame) :
  StronglySorted Z.lt (map fst df) ->
  map fst (interpolation_engine df) = map fst df
  /\ interpolation_engine (interpolation_engine df) = interpolation_engine df.
Proof.
  intros Hs. pose proof (interpolation_engine_datetimes df Hs) as Hk.
  split; [exact Hk|].
  rewrite (interpolation_engine_eq (interpolation_engine df)).
  rewrite (map_ext_in _ (hourly_data (interpolation_engine df))).
  - apply sort_values_restores; [rewrite Hk; exact Hs|].
    symmetry. apply hours_of_day_perm.
  - intros hour _. destruct (interpolation_engine_bucket df hour) as [H|H].
    + apply fill_hour_known. exact H.
    + apply fill_hour_missing. exact H.
Qed.

Lemma interpolation_engine_twice_witness :
  map fst (interpolation_engine (forecast_df_full (hourly_of forecast_3)))
  = map fst (forecast_df_full (hourly_of forecast_3))
  /\ interpolation_engine (interpolation_engine (forecast_df_full (hourly_of forecast_3)))
     = interpolation_engine (forecast_df_full (hourly_of forecast_3)).
Proof.
  apply (interpolation_engine_twice (forecast_df_full (hourly_of forecast_3))).
  apply forecast_df_full_sorted.
Defined.
